(** * GUE gas-planning helpers ([gue_calc_lib.py]): model and verification

    The library is a set of closed-form formulas over Python [float]s.  The
    model keeps the arithmetic of the source: numbers are IEEE-754 binary64
    values (the Standard Library's [SpecFloat], precision 53, [emax] 1024),
    every operation rounds as the interpreter does, and the operations that
    can raise ([/], [int], [round], [math.floor], dictionary lookup) live in
    an error monad. *)

From Stdlib Require Import ZArith QArith Qround Qabs Lqa Lia Bool String.
From Stdlib Require Import Floats.SpecFloat.
From stdpp Require Import gmap strings.

(** ** Binary64 *)

Module F64.

Definition prec : Z := 53.
Definition emax : Z := 1024.

Definition float : Set := spec_float.

Definition add : float -> float -> float := SFadd prec emax.
Definition sub : float -> float -> float := SFsub prec emax.
Definition mul : float -> float -> float := SFmul prec emax.
Definition div : float -> float -> float := SFdiv prec emax.

Definition eqb : float -> float -> bool := SFeqb.
Definition ltb : float -> float -> bool := SFltb.
Definition leb : float -> float -> bool := SFleb.
(** Python's [x > y]. *)
Definition gtb (x y : float) : bool := SFltb y x.

(** The double nearest to an integer (ties to even). *)
Definition of_Z (z : Z) : float := binary_normalize prec emax z 0 false.

(** The double nearest to [n / d], with sign bit [s]: how a decimal
    literal and a decimal string are read. *)
Definition of_ratio (s : bool) (n : Z) (d : positive) : float :=
  let '(mz, ez, lz) := SFdiv_core_binary prec emax n 0 (Zpos d) 0 in
  binary_round_aux prec emax s mz ez lz.

(** The literal [n e-k], for instance [dec 32 2] for [0.32]. *)
Definition dec (n : positive) (k : nat) : float :=
  of_ratio false (Zpos n) (Z.to_pos (Z.pow 10 (Z.of_nat k))).

Definition zero : float := S754_zero false.
Definition one : float := of_Z 1.
Definition two : float := of_Z 2.
Definition ten : float := of_Z 10.
Definition half : float := dec 5 1.

Definition is_zero (x : float) : bool :=
  match x with S754_zero _ => true | _ => false end.

Definition is_finite (x : float) : bool :=
  match x with S754_zero _ | S754_finite _ _ _ => true | _ => false end.

Definition sign (x : float) : bool :=
  match x with
  | S754_zero s | S754_infinity s | S754_finite s _ _ => s
  | S754_nan => false
  end.

(** The signed mantissa and the exact value of a finite double. *)
Definition mant (s : bool) (m : positive) : Z := cond_Zopp s (Zpos m).

Definition to_Q (x : float) : Q :=
  match x with
  | S754_finite s m (Zneg k) => mant s m # Pos.pow 2 k
  | S754_finite s m e => inject_Z (mant s m * 2 ^ e)
  | _ => 0
  end.

(** A finite double in range: at most [prec] bits of mantissa and an
    exponent that does not overflow.  Every finite result of the rounding
    step is in range. *)
Definition in_range (x : float) : Prop :=
match x with
| S754_finite _ m e => (Zpos (digits2_pos m) <= prec /\ e <= emax - prec)%Z
| _ => True
end.

(** Integers a double holds exactly: zero, and [M * 2 ^ e] up to sign with
    [M] of at most [prec] bits. *)
Definition representable (n : Z) : Prop :=
n = 0%Z \/
exists (M : positive) (e : Z),
  (Z.abs n = Zpos M * 2 ^ e /\ 0 <= e <= emax - prec /\
   Zpos (digits2_pos M) <= prec)%Z.

(** A double in canonical form, as every operation returns it. *)
Definition valid (x : float) : Prop := valid_binary prec emax x = true.

End F64.

(** ** The interpreter: exceptions and the built-in operations on numbers *)

Module Py.
Import F64.

Inductive exn : Set :=
| ZeroDivisionError
| OverflowError
| ValueError
| KeyError.

Inductive result (A : Type) : Type :=
| Ok (a : A)
| Raise (e : exn).
Arguments Ok {A} a.
Arguments Raise {A} e.

#[global] Instance result_ret : MRet result := fun A a => Ok a.
#[global] Instance result_bind : MBind result := fun A B f m =>
  match m with
  | Ok a => f a
  | Raise e => Raise e
  end.

(** [x / y] on floats: a zero divisor raises, everything else is IEEE. *)
Definition truediv (x y : float) : result float :=
  if eqb y zero then Raise ZeroDivisionError else Ok (div x y).

(** An [int] operand of a float operation is converted first; an [int]
    with no double in range raises. *)
Definition float_of_int (n : Z) : result float :=
  match of_Z n with
  | S754_infinity _ => Raise OverflowError
  | f => Ok f
  end.

(** [int(x)]: the digits of [x] above the binary point. *)
Definition float_int (x : float) : result Z :=
  match x with
  | S754_nan => Raise ValueError
  | S754_infinity _ => Raise OverflowError
  | S754_zero _ => Ok 0%Z
  | S754_finite s m e => Ok (cond_Zopp s (Z.shiftl (Zpos m) e))
  end.

(** [math.floor(x)]. *)
Definition math_floor (x : float) : result Z :=
  match x with
  | S754_nan => Raise ValueError
  | S754_infinity _ => Raise OverflowError
  | S754_zero _ => Ok 0%Z
  | S754_finite s m e => Ok (Z.shiftl (mant s m) e)
  end.

(** C's [round]: to the nearest integer, halves away from zero. *)
Definition c_round (v : Q) : Z :=
  if Qle_bool 0 v then Qfloor (v + (1 # 2)) else Qceiling (v - (1 # 2)).

(** [round(x)] on the exact value: [c_round], redone through [x / 2] when
    [x] lies half-way between two integers. *)
Definition round_int (v : Q) : Z :=
  let rounded := c_round v in
  if Qeq_bool (Qabs (v - inject_Z rounded)) (1 # 2)
  then (2 * c_round (v / 2))%Z
  else rounded.

(** [round(x)]. *)
Definition float_round (x : float) : result Z :=
  match x with
  | S754_nan => Raise ValueError
  | S754_infinity _ => Raise OverflowError
  | _ => Ok (round_int (to_Q x))
  end.

(** The integer nearest to [v], halves to the even neighbour. *)
Definition Qround_even (v : Q) : Z :=
  let f := Qfloor v in
  match (v - inject_Z f ?= 1 # 2)%Q with
  | Lt => f
  | Gt => (f + 1)%Z
  | Eq => if Z.even f then f else (f + 1)%Z
  end.

(** [round(x, ndigits)] for [0 <= ndigits]: the decimal with [ndigits]
    places nearest to [x] (halves to even), read back as the nearest
    double.  Infinities and NaN are returned as they are; the sign of [x]
    is kept, also on a zero result. *)
Definition float_round_to (x : float) (ndigits : nat) : float :=
  match x with
  | S754_finite s _ _ =>
      let p := Z.to_pos (10 ^ Z.of_nat ndigits) in
      of_ratio s (Qround_even (Qabs (to_Q x) * inject_Z (Zpos p))) p
  | _ => x
  end.

(** [a / b] on two [int]s: the double nearest to the exact quotient; a
    quotient beyond the doubles raises. *)
Definition int_truediv (a b : Z) : result float :=
  if (b =? 0)%Z then Raise ZeroDivisionError
  else
    match of_ratio (xorb (a <? 0)%Z (b <? 0)%Z) (Z.abs a) (Z.to_pos (Z.abs b)) with
    | S754_infinity _ => Raise OverflowError
    | f => Ok f
    end.

(** What [print] writes: a line is the list of its arguments (written with
    a space between them), an argument a concatenation of pieces.  A float
    piece is kept as the float, not as its decimal spelling. *)
Inductive piece : Set :=
| Str (s : string)
| Int (n : Z)
| Float (x : float).

Definition line : Set := list (list piece).

End Py.

(** ** The library *)

Module GueCalcLib.
Import F64 Py.

(** Arguments are [float]s, as annotated; an [int] argument stands for
    the double it converts to.  Default values are passed explicitly. *)

(** [calcATA(depth, water='salt')] *)
Definition calcATA (depth : float) (water : string) : result float :=
  let divisor := if decide (water = "fresh"%string) then of_Z 34 else of_Z 33 in
  q ← truediv depth divisor;
  mret (float_round_to (add q one) 1).

(** [calcTimeToStop(depth, gas_switch_depth=0)] *)
Definition calcTimeToStop (depth gas_switch_depth : float) : result Z :=
  if gtb gas_switch_depth zero then
    q ← truediv (sub depth gas_switch_depth) ten;
    float_int (add q two)
  else
    q ← truediv depth ten;
    float_int (add q one).

(** [calcMG(depth, gas_switch_depth=0, c=1.5, verbose=False)]; the
    [verbose] branch only prints and is left out. *)
Definition calcMG (depth gas_switch_depth c : float) : result Z :=
  a1 ← calcATA depth "salt";
  a2 ← calcATA gas_switch_depth "salt";
  a ← truediv (add a1 a2) two;
  t ← calcTimeToStop depth gas_switch_depth;
  tf ← float_of_int t;
  let mg := mul (mul c a) tf in
  math_floor (add mg half).

(** [calcTF(rated_vol, rated_psi)] *)
Definition calcTF (rated_vol rated_psi : float) : result float :=
  q ← truediv rated_vol rated_psi;
  n ← float_round (mul (mul q (of_Z 100)) two);
  nf ← float_of_int n;
  truediv nf two.

(** [nitrox_FO2(trimix_po2, nitrox_p_val)] *)
Definition nitrox_FO2 (trimix_po2 nitrox_p_val : float) : result float :=
  if eqb nitrox_p_val zero then mret zero
  else truediv trimix_po2 nitrox_p_val.

(** [calcTimeToSurface(depth)] *)
Definition calcTimeToSurface (depth : float) : result Z :=
  calcTimeToStop depth zero.

(** [calcSCR(volume_consumed, ata, minutes)] *)
Definition calcSCR (volume_consumed ata minutes : float) : result float :=
  q ← truediv volume_consumed ata;
  truediv q minutes.

(** The dictionary [methods] of [calcUG]. *)
Definition methods : gmap string Z :=
  {[ "ALL"%string := 1%Z; "HALF"%string := 2%Z; "THIRDS"%string := 3%Z ]}.

(** [calcUG(curr_psi=3000.0, mg_psi=500.0, method='ALL')] *)
Definition calcUG (curr_psi mg_psi : float) (method : string) : result float :=
  match methods !! method with
  | None => Raise KeyError
  | Some d =>
      df ← float_of_int d;
      truediv (sub curr_psi mg_psi) df
  end.

(** [calcMOD(f_o2, ppo2_limit=1.4, water='salt')] *)
Definition calcMOD (f_o2 ppo2_limit : float) (water : string) : result Z :=
  if leb f_o2 zero then mret 0%Z
  else
    let factor := if decide (water = "fresh"%string) then of_Z 34 else of_Z 33 in
    ata ← truediv ppo2_limit f_o2;
    float_int (mul (sub ata one) factor).

(** [calcEND(depth, f_he, water='salt')] *)
Definition calcEND (depth f_he : float) (water : string) : result Z :=
  let factor := if decide (water = "fresh"%string) then of_Z 34 else of_Z 33 in
  q ← truediv depth factor;
  let ata := add q one in
  let narcotic_ata := mul ata (sub one f_he) in
  float_int (mul (sub narcotic_ata one) factor).

(** The dictionary [tanks]; a list, in the order of the source, since the
    command line prints its keys. *)
Record tank_info : Set := { rated_vol : Z; rated_PSI : Z }.

Definition tanks : list (string * tank_info) :=
  [ ("AL80"%string, {| rated_vol := 77; rated_PSI := 3000 |});
    ("2xAL80"%string, {| rated_vol := 154; rated_PSI := 3000 |});
    ("AL40"%string, {| rated_vol := 40; rated_PSI := 3000 |});
    ("2xLP85"%string, {| rated_vol := 170; rated_PSI := 2640 |});
    ("2xHP100"%string, {| rated_vol := 200; rated_PSI := 3442 |});
    ("2xHP133"%string, {| rated_vol := 266; rated_PSI := 3442 |}) ].

(** [d.get(key)] and [d.keys()] on a dictionary kept as a list. *)
Fixpoint dict_get {V : Type} (d : list (string * V)) (key : string) : option V :=
  match d with
  | [] => None
  | (k, v) :: d' => if decide (k = key) then Some v else dict_get d' key
  end.

Definition dict_keys {V : Type} (d : list (string * V)) : list string :=
  map fst d.

(** [calcpTot(gasses)]; [None] is a value, nothing is raised. *)
Definition calcpTot (gasses : list float) : option float :=
  let total := fold_left add gasses zero in
  if gtb total (of_Z 100) then None else Some total.

(** [calcpGas(ata, f_gas)] *)
Definition calcpGas (ata f_gas : float) : float := mul ata f_gas.

(** [calcPPO2(depth=0, percent_O2=0.21)] *)
Definition calcPPO2 (depth percent_O2 : float) : result float :=
  a ← calcATA depth "salt";
  mret (mul a percent_O2).

(** [calcPSI(tank_factor, gas_cf)] *)
Definition calcPSI (tank_factor gas_cf : float) : result Z :=
  q ← truediv gas_cf tank_factor;
  n ← float_int q;
  mret (n * 100)%Z.

(** [trimix_PO2(f_o2=0.16, p=3000.0)] *)
Definition trimix_PO2 (f_o2 p : float) : float := mul f_o2 p.

(** [trimix_P_He(f_he=0.40, p=3000.0)] *)
Definition trimix_P_He (f_he p : float) : float := mul f_he p.

(** [nitrox_p(trimix_p_he, p=3000.0)] *)
Definition nitrox_p (trimix_p_he p : float) : float := sub p trimix_p_he.

(** [calcCF(tank_factor, gas_psi)] *)
Definition calcCF (tank_factor gas_psi : float) : result float :=
  truediv (mul gas_psi tank_factor) (of_Z 100).

(** [calcGasVolCons(scr, ata, minutes)] *)
Definition calcGasVolCons (scr ata minutes : float) : float :=
  mul (mul scr ata) minutes.

(** [O2_PSI_to_add(target_fraction_o2=0.32, p=3000.0)] *)
Definition O2_PSI_to_add (target_fraction_o2 p : float) : result float :=
  q ← truediv (sub target_fraction_o2 (dec 21 2)) (dec 79 2);
  mret (mul q p).

(** [trimixPP(f_o2=0.16, f_he=0.40, p=3000.0)]: the lines printed.  The
    only operations that can raise are the two [int] of the first [print],
    evaluated before anything is written. *)
Definition trimixPP (f_o2 f_he p : float) : result (list line) :=
  let p_he_to_add := trimix_P_He f_he p in
  let t_po2 := trimix_PO2 f_o2 p in
  let nit_p := nitrox_p p_he_to_add p in
  nit_fo2 ← nitrox_FO2 t_po2 nit_p;
  o2 ← float_int (mul f_o2 (of_Z 100));
  he ← float_int (mul f_he (of_Z 100));
  add_o2 ← O2_PSI_to_add nit_fo2 nit_p;
  mret [ [[Str "for trimix:"]; [Int o2]; [Str "/"]; [Int he]];
         [[Str "add He:"]; [Float p_he_to_add]];
         [[Str "add O2:"]; [Float add_o2]];
         [[Str "fill with air"]] ].

(** [calcEAD(depth, f_o2, water='salt')] *)
Definition calcEAD (depth f_o2 : float) (water : string) : result Z :=
  let factor := if decide (water = "fresh"%string) then of_Z 34 else of_Z 33 in
  q ← truediv depth factor;
  let ata := add q one in
  let f_n2 := sub one f_o2 in
  r ← truediv f_n2 (dec 79 2);
  let ead_ata := mul ata r in
  float_int (mul (sub ead_ata one) factor).

(** [calcTF], [calcPSI] and [calcUG] as [calcBottomTime] calls them, on
    the [int]s of the tank dictionary and of [calcMG]: [int / int] and
    [int - int] are the operations on integers there. *)
Definition calcTF_int (rated_vol rated_psi : Z) : result float :=
  q ← int_truediv rated_vol rated_psi;
  n ← float_round (mul (mul q (of_Z 100)) two);
  nf ← float_of_int n;
  truediv nf two.

Definition calcPSI_int (tank_factor : float) (gas_cf : Z) : result Z :=
  cf ← float_of_int gas_cf;
  calcPSI tank_factor cf.

Definition calcUG_int (curr_psi mg_psi : Z) (method : string) : result float :=
  match methods !! method with
  | None => Raise KeyError
  | Some d => int_truediv (curr_psi - mg_psi) d
  end.

(** [calcBottomTime(depth=100.0, tank='2xAL80', method='ALL', scr=1.5)] *)
Definition calcBottomTime (depth : float) (tank method : string) (scr : float)
  : result float :=
  ata ← calcATA depth "salt";
  match dict_get tanks tank with
  | None => Raise KeyError
  | Some tank_info =>
      tf ← calcTF_int (rated_vol tank_info) (rated_PSI tank_info);
      mg_cf ← calcMG depth zero (dec 15 1);
      mg_psi ← calcPSI_int tf mg_cf;
      ug ← calcUG_int (rated_PSI tank_info) mg_psi method;
      truediv ug (mul scr ata)
  end.

End GueCalcLib.

(** ** The command line ([gue_calc_cli.py]) *)

Module GueCalcCli.
Import F64 Py GueCalcLib.

(** How a command ends: it returns, it leaves through [sys.exit], or an
    exception escapes; with the lines written until then. *)
Inductive outcome : Set :=
| Returned (out : list line)
| Exited (out : list line) (status : Z)
| Escaped (out : list line) (e : exn).

(** [', '.join(keys)] *)
Fixpoint join (sep : string) (l : list string) : string :=
  match l with
  | [] => ""
  | [x] => x
  | x :: l' => x +:+ sep +:+ join sep l'
  end.

(** [cmd_tank(args)], with [args.tank_name] as the argument. *)
Definition cmd_tank (tank_name : string) : outcome :=
  match dict_get tanks tank_name with
  | None =>
      Exited
        [ [[Str "Error: Tank '"; Str tank_name;
            Str "' not found. Available tanks: ";
            Str (join ", " (dict_keys tanks))]] ]
        1
  | Some t =>
      match calcTF_int (rated_vol t) (rated_PSI t) with
      | Raise e => Escaped [] e
      | Ok tf =>
          Returned
            [ [[Str "Tank: "; Str tank_name]];
              [[Str "  Rated Volume: "; Int (rated_vol t); Str " cf"]];
              [[Str "  Rated Pressure: "; Int (rated_PSI t); Str " psi"]];
              [[Str "  Tank Factor: "; Float tf; Str " cf/100psi"]] ]
      end
  end.

End GueCalcCli.

(** ** The formulas as the specification words them *)

Module Spec.
Import F64 Py.

(** Truncation toward zero of a rational. *)
Definition Qtrunc (v : Q) : Z :=
  if Qle_bool 0 v then Qfloor v else Qceiling v.

(** [n] is an integer nearest to [v], and the even one of the two when
    [v] lies half-way. *)
Definition nearest_even (v : Q) (n : Z) : Prop :=
  (Qabs (v - inject_Z n) <= 1 # 2)%Q /\
  ((Qabs (v - inject_Z n) == 1 # 2)%Q -> Z.even n = true).

(** Rounding to the nearest integer with halves away from zero, on a
    float. *)
Definition round_half_away (x : float) : result Z :=
  match x with
  | S754_nan => Raise ValueError
  | S754_infinity _ => Raise OverflowError
  | _ => Ok (c_round (to_Q x))
  end.

(** [tankFactor]: [round((ratedVolume/ratedPressure)*100*2) / 2] with the
    rounding step done half away from zero. *)
Definition tankFactor_half_away (ratedVolume ratedPressure : float) : result float :=
  q ← truediv ratedVolume ratedPressure;
  n ← round_half_away (mul (mul q (of_Z 100)) two);
  nf ← float_of_int n;
  truediv nf two.

(** [surfaceConsumptionRate]: [volumeConsumed / (ata * minutes)], failing
    when [ata * minutes == 0]. *)
Definition surfaceConsumptionRate (volumeConsumed ata minutes : float) : result float :=
  truediv volumeConsumed (mul ata minutes).

(** The divisor of a water type: 34 for fresh water, 33 otherwise. *)
Definition divisor (water : string) : float :=
  if decide (water = "fresh"%string) then of_Z 34 else of_Z 33.

End Spec.

Import F64 Py GueCalcLib.

(** ** Facts on binary64 comparisons and operations *)

Section Float_facts.
Import F64 Py.

Lemma eqb_zero_is_zero (x : float) : eqb x zero = is_zero x.
Proof. destruct x as [[]|[]| |[] m e]; reflexivity. Qed.

Lemma gtb_zero_not_zero (x : float) : gtb x zero = true -> is_zero x = false.
Proof. destruct x as [[]|[]| |[] m e]; simpl; intros H; try reflexivity; discriminate H. Qed.

Lemma gtb_zero_not_leb (x : float) : gtb x zero = true -> leb x zero = false.
Proof. destruct x as [[]|[]| |[] m e]; simpl; intros H; try reflexivity; discriminate H. Qed.

Lemma leb_zero_not_gtb (x : float) : leb x zero = true -> gtb x zero = false.
Proof. destruct x as [[]|[]| |[] m e]; simpl; intros H; try reflexivity; discriminate H. Qed.

Lemma truediv_nonzero (x y : float) :
  is_zero y = false -> truediv x y = Ok (div x y).
Proof. intros H. unfold truediv. rewrite eqb_zero_is_zero, H. reflexivity. Qed.

Lemma truediv_zero (x y : float) :
  is_zero y = true -> truediv x y = Raise ZeroDivisionError.
Proof. intros H. unfold truediv. rewrite eqb_zero_is_zero, H. reflexivity. Qed.

(** The constants of the library are exact, and the decimal literals of
    the reference values are the doubles the interpreter reads
    ([float.hex]: [0.32] is [0x1.47ae147ae147bp-2], [1.4] is
    [0x1.6666666666666p+0], [1.6] is [0x1.999999999999ap+0], [0.45] is
    [0x1.ccccccccccccdp-2], [0.3] is [0x1.3333333333333p-2]). *)
Lemma constants_exact :
  (to_Q one == 1 /\ to_Q two == 2 /\ to_Q ten == 10 /\ to_Q half == 1 # 2 /\
   to_Q (of_Z 33) == 33 /\ to_Q (of_Z 34) == 34 /\ to_Q (of_Z 100) == 100)%Q.
Proof. repeat split. Qed.

Lemma literals_bits :
  dec 32 2 = S754_finite false 0x147ae147ae147b (-54) /\
  dec 14 1 = S754_finite false 0x16666666666666 (-52) /\
  dec 16 1 = S754_finite false 0x1999999999999a (-52) /\
  dec 45 2 = S754_finite false 0x1ccccccccccccd (-54) /\
  dec 30 2 = S754_finite false 0x13333333333333 (-54) /\
  dec 15 1 = S754_finite false 0x18000000000000 (-52).
Proof. repeat split. Qed.

(** Addition of doubles commutes. *)
Lemma add_comm (x y : float) : add x y = add y x.
Proof.
  destruct x as [[]|[]| |sx mx ex], y as [[]|[]| |sy my ey];
    try reflexivity.
  unfold add, SFadd.
  rewrite (Z.min_comm ey ex), Z.add_comm. reflexivity.
Qed.

End Float_facts.

(** ** Rounding rationals to integers *)

Section Rounding_facts.
Import F64 Py Spec.
Local Open Scope Q_scope.

(** Push [inject_Z] through integer arithmetic, so that [lra] sees the
    integer parts as atoms. *)
Ltac push_inject :=
  unfold Z.sub in *;
  repeat (progress rewrite ?inject_Z_plus, ?inject_Z_opp, ?inject_Z_mult in * );
  change (inject_Z 0) with 0 in *;
  change (inject_Z 1) with 1 in *;
  change (inject_Z 2) with 2 in *.

Lemma Qfloor_unique (v : Q) (n : Z) :
  inject_Z n <= v -> v < inject_Z (n + 1) -> Qfloor v = n.
Proof.
  intros Hlo Hhi.
  pose proof (Qfloor_le v) as H1. pose proof (Qlt_floor v) as H2.
  assert (n < Qfloor v + 1)%Z by (rewrite Zlt_Qlt; lra).
  assert (Qfloor v < n + 1)%Z by (rewrite Zlt_Qlt; lra).
  lia.
Qed.

Lemma Qceiling_unique (v : Q) (n : Z) :
  inject_Z (n - 1) < v -> v <= inject_Z n -> Qceiling v = n.
Proof.
  intros Hlo Hhi.
  pose proof (Qle_ceiling v) as H1. pose proof (Qceiling_lt v) as H2.
  assert (n - 1 < Qceiling v)%Z by (rewrite Zlt_Qlt; lra).
  assert (Qceiling v - 1 < n)%Z by (rewrite Zlt_Qlt; lra).
  lia.
Qed.

Lemma Qle_bool_false (x y : Q) : Qle_bool x y = false -> y < x.
Proof.
  intros H. apply Qnot_le_lt. intros Hle.
  apply Qle_bool_iff in Hle. congruence.
Qed.

Lemma Qabs_half (d : Q) : Qabs d == 1 # 2 <-> d == 1 # 2 \/ d == - (1 # 2).
Proof.
  split.
  - apply Qabs_case; intros H1 H2; [left | right]; lra.
  - intros [H | H]; rewrite H; reflexivity.
Qed.

Lemma Qabs_le_half (d : Q) : Qabs d <= 1 # 2 <-> - (1 # 2) <= d <= 1 # 2.
Proof. apply Qabs_Qle_condition. Qed.

(** [c_round] is within a half of its argument, and on a tie it is the
    neighbour away from zero. *)
Lemma c_round_pos (v : Q) :
  0 <= v -> - (1 # 2) <= v - inject_Z (c_round v) < 1 # 2.
Proof.
  intros Hv. unfold c_round.
  apply Qle_bool_iff in Hv. rewrite Hv.
  pose proof (Qfloor_le (v + (1 # 2))). pose proof (Qlt_floor (v + (1 # 2))) as H2.
  push_inject. lra.
Qed.

Lemma c_round_neg (v : Q) :
  v < 0 -> - (1 # 2) < v - inject_Z (c_round v) <= 1 # 2.
Proof.
  intros Hv. unfold c_round.
  destruct (Qle_bool 0 v) eqn:E; [apply Qle_bool_iff in E; lra|].
  pose proof (Qle_ceiling (v - (1 # 2))). pose proof (Qceiling_lt (v - (1 # 2))) as H2.
  unfold Z.sub in H2. push_inject. lra.
Qed.

(** The interpreter's [round] picks a nearest integer, and the even one
    on a tie. *)
Lemma round_int_nearest_even (v : Q) : nearest_even v (round_int v).
Proof.
  unfold round_int, nearest_even.
  change (v / 2) with (v * (1 # 2)).
  destruct (Qeq_bool (Qabs (v - inject_Z (c_round v))) (1 # 2)) eqn:E.
  - apply Qeq_bool_iff, Qabs_half in E.
    pose proof (Z.div2_odd (c_round v)) as Hr.
    set (a := Z.div2 (c_round v)) in *.
    destruct (Qlt_le_dec v 0) as [Hneg | Hpos].
    + pose proof (c_round_neg v Hneg) as Hb.
      assert (Hc : c_round (v * (1 # 2)) = (a + Z.b2z (Z.odd (c_round v)))%Z).
      { unfold c_round at 1.
        destruct (Qle_bool 0 (v * (1 # 2))) eqn:E2; [apply Qle_bool_iff in E2; lra|].
        apply Qceiling_unique; rewrite Hr in E, Hb;
          destruct (Z.odd (c_round v)), E; simpl Z.b2z in *; push_inject; lra. }
      rewrite Hc. rewrite Hr in E, Hb. rewrite Z.even_mul. split; [|reflexivity].
      apply Qabs_le_half.
      destruct (Z.odd (c_round v)), E; simpl Z.b2z in *; push_inject; lra.
    + pose proof (c_round_pos v Hpos) as Hb.
      assert (Hc : c_round (v * (1 # 2)) = a).
      { unfold c_round at 1.
        destruct (Qle_bool 0 (v * (1 # 2))) eqn:E2; [|apply Qle_bool_false in E2; lra].
        apply Qfloor_unique; rewrite Hr in E, Hb;
          destruct (Z.odd (c_round v)), E; simpl Z.b2z in *; push_inject; lra. }
      rewrite Hc. rewrite Hr in E, Hb. rewrite Z.even_mul. split; [|reflexivity].
      apply Qabs_le_half.
      destruct (Z.odd (c_round v)), E; simpl Z.b2z in *; push_inject; lra.
  - split.
    + apply Qabs_le_half.
      destruct (Qlt_le_dec v 0) as [Hneg | Hpos];
        [pose proof (c_round_neg v Hneg) | pose proof (c_round_pos v Hpos)]; lra.
    + intros Habs. apply Qeq_bool_iff in Habs. congruence.
Qed.

Lemma Qround_even_nearest (v : Q) : nearest_even v (Qround_even v).
Proof.
  unfold Qround_even, nearest_even.
  pose proof (Qfloor_le v) as Hlo. pose proof (Qlt_floor v) as Hhi.
  set (f := Qfloor v) in *.
  destruct (v - inject_Z f ?= 1 # 2) eqn:E.
  - apply Qeq_alt in E.
    destruct (Z.even f) eqn:Ev.
    + split; [apply Qabs_le_half; lra | trivial].
    + split; [apply Qabs_le_half; push_inject; lra |].
      intros _. rewrite Z.add_1_r, Z.even_succ, <- Z.negb_even, Ev. reflexivity.
  - apply Qlt_alt in E. split; [apply Qabs_le_half; lra |].
    intros [H | H]%Qabs_half; lra.
  - apply Qgt_alt in E. split; [apply Qabs_le_half; push_inject; lra |].
    intros [H | H]%Qabs_half; push_inject; lra.
Qed.

(** [nearest_even] determines the integer. *)
Lemma nearest_even_unique (v : Q) (n1 n2 : Z) :
  nearest_even v n1 -> nearest_even v n2 -> n1 = n2.
Proof.
  intros [H1 E1] [H2 E2].
  apply Qabs_le_half in H1, H2.
  assert (Hle1 : (n1 - n2 <= 1)%Z) by (rewrite Zle_Qle; push_inject; lra).
  assert (Hle2 : (n2 - n1 <= 1)%Z) by (rewrite Zle_Qle; push_inject; lra).
  assert (Hcases : n1 = n2 \/ n1 = (n2 + 1)%Z \/ n2 = (n1 + 1)%Z) by lia.
  destruct Hcases as [? | [-> | ->]]; [assumption | exfalso ..].
  - assert (T1 : Z.even (n2 + 1) = true)
      by (apply E1, Qabs_half; right; push_inject; lra).
    assert (T2 : Z.even n2 = true)
      by (apply E2, Qabs_half; left; push_inject; lra).
    rewrite Z.add_1_r, Z.even_succ, <- Z.negb_even, T2 in T1. discriminate T1.
  - assert (T1 : Z.even n1 = true)
      by (apply E1, Qabs_half; left; push_inject; lra).
    assert (T2 : Z.even (n1 + 1) = true)
      by (apply E2, Qabs_half; right; push_inject; lra).
    rewrite Z.add_1_r, Z.even_succ, <- Z.negb_even, T1 in T2. discriminate T2.
Qed.

(** The interpreter's [round] is rounding half to even. *)
Lemma round_int_even (v : Q) : round_int v = Qround_even v.
Proof.
  apply (nearest_even_unique v);
    [apply round_int_nearest_even | apply Qround_even_nearest].
Qed.

(** Truncation keeps the sign and drops less than one unit. *)
Lemma Qtrunc_spec (v : Q) :
  (0 <= v -> inject_Z (Qtrunc v) <= v < inject_Z (Qtrunc v) + 1) /\
  (v <= 0 -> v <= inject_Z (Qtrunc v) /\ inject_Z (Qtrunc v) - 1 < v).
Proof.
  unfold Qtrunc.
  pose proof (Qfloor_le v). pose proof (Qlt_floor v).
  pose proof (Qle_ceiling v). pose proof (Qceiling_lt v).
  pose proof (Qle_floor_ceiling v) as Hfc.
  push_inject.
  destruct (Qle_bool 0 v) eqn:E.
  - apply Qle_bool_iff in E. split; intros Hv; [lra |].
    assert (Hz : Qfloor v = 0%Z)
      by (apply Qfloor_unique;
          [change (inject_Z 0) with 0 | change (inject_Z (0 + 1)) with 1]; lra).
    rewrite Hz. change (inject_Z 0) with 0. lra.
  - apply Qle_bool_false in E. split; intros Hv; lra.
Qed.

End Rounding_facts.

(** ** The conversions to [int] on exact values *)

Section Conversion_facts.
Import F64 Py Spec.

Lemma Qtrunc_Z (z : Z) : Qtrunc (inject_Z z) = z.
Proof.
  unfold Qtrunc. destruct (Qle_bool 0 (inject_Z z));
    [apply Qfloor_Z | apply Qceiling_Z].
Qed.

Lemma mant_shiftl (s : bool) (m p : positive) :
  (mant s m * 2 ^ Zpos p)%Z = cond_Zopp s (Z.shiftl (Zpos m) (Zpos p)).
Proof.
  rewrite Z.shiftl_mul_pow2 by lia.
  destruct s; unfold mant, cond_Zopp; lia.
Qed.

Lemma shiftl_neg (a : Z) (k : positive) :
  Z.shiftl a (Zneg k) = (a / Zpos (2 ^ k))%Z.
Proof.
  change (Z.shiftl a (Zneg k)) with (Z.shiftr a (Zpos k)).
  rewrite Z.shiftr_div_pow2 by lia.
  rewrite Pos2Z.inj_pow. reflexivity.
Qed.

(** [int(x)] truncates the exact value toward zero. *)
Lemma float_int_finite (s : bool) (m : positive) (e : Z) :
  cond_Zopp s (Z.shiftl (Zpos m) e) = Qtrunc (to_Q (S754_finite s m e)).
Proof.
  destruct e as [| p | k]; unfold to_Q.
  - rewrite Qtrunc_Z, Z.shiftl_0_r, Z.mul_1_r. reflexivity.
  - rewrite Qtrunc_Z. symmetry. apply mant_shiftl.
  - rewrite shiftl_neg. destruct s; reflexivity.
Qed.

(** [math.floor(x)] is the floor of the exact value. *)
Lemma math_floor_finite (s : bool) (m : positive) (e : Z) :
  Z.shiftl (mant s m) e = Qfloor (to_Q (S754_finite s m e)).
Proof.
  destruct e as [| p | k]; unfold to_Q.
  - rewrite Qfloor_Z, Z.shiftl_0_r, Z.mul_1_r. reflexivity.
  - rewrite Qfloor_Z, Z.shiftl_mul_pow2 by lia. reflexivity.
  - rewrite shiftl_neg. reflexivity.
Qed.

Lemma float_int_spec (x : float) (n : Z) :
  float_int x = Ok n <-> is_finite x = true /\ n = Qtrunc (to_Q x).
Proof.
  destruct x as [s | s | | s m e]; simpl float_int; simpl is_finite.
  - change (Qtrunc (to_Q (S754_zero s))) with 0%Z.
    split; [intros [= <-]; auto | intros [_ ->]; reflexivity].
  - split; [discriminate | intros [[=] _]].
  - split; [discriminate | intros [[=] _]].
  - rewrite float_int_finite.
    split; [intros [= <-]; auto | intros [_ ->]; reflexivity].
Qed.

Lemma math_floor_spec (x : float) (n : Z) :
  math_floor x = Ok n <-> is_finite x = true /\ n = Qfloor (to_Q x).
Proof.
  destruct x as [s | s | | s m e]; simpl math_floor; simpl is_finite.
  - change (Qfloor (to_Q (S754_zero s))) with 0%Z.
    split; [intros [= <-]; auto | intros [_ ->]; reflexivity].
  - split; [discriminate | intros [[=] _]].
  - split; [discriminate | intros [[=] _]].
  - rewrite math_floor_finite.
    split; [intros [= <-]; auto | intros [_ ->]; reflexivity].
Qed.

Lemma float_round_spec (x : float) (n : Z) :
  float_round x = Ok n <-> is_finite x = true /\ nearest_even (to_Q x) n.
Proof.
  assert (Hfin : forall y, is_finite y = true ->
                  float_round y = Ok (round_int (to_Q y)))
    by (intros [s | s | | s m e]; simpl; intros H; try discriminate H; reflexivity).
  split.
  - intros H. destruct x as [s | s | | s m e]; try discriminate H;
      (split; [reflexivity |]); rewrite Hfin in H by reflexivity;
      injection H as <-; apply round_int_nearest_even.
  - intros [Hf Hn]. rewrite (Hfin x Hf). f_equal.
    apply (nearest_even_unique (to_Q x)); [apply round_int_nearest_even | exact Hn].
Qed.

End Conversion_facts.

(** ** Doubles in range and the exact conversion of integers *)

Section Exact_conversion.
Import F64 Py Spec.

Lemma digits2_size (p : positive) : digits2_pos p = Pos.size p.
Proof. induction p; simpl; congruence. Qed.

Lemma digits2_bounds (p : positive) :
  (2 ^ (Zpos (digits2_pos p) - 1) <= Zpos p < 2 ^ Zpos (digits2_pos p))%Z.
Proof.
  rewrite digits2_size.
  pose proof (Pos.size_gt p) as Hgt. pose proof (Pos.size_le p) as Hle.
  apply Pos2Z.pos_lt_pos in Hgt. apply Pos2Z.pos_le_pos in Hle.
  rewrite Pos2Z.inj_pow in Hgt, Hle.
  split; [| exact Hgt].
  replace (Zpos (Pos.size p)) with (Z.succ (Zpos (Pos.size p) - 1)) in Hle by lia.
  rewrite Z.pow_succ_r in Hle by lia. lia.
Qed.

Lemma Zdigits2_le (m j : Z) : (0 <= j -> 0 <= m < 2 ^ j -> Zdigits2 m <= j)%Z.
Proof.
  intros Hj [H0 Hm]. destruct m as [| p | p]; simpl; [lia | | lia].
  pose proof (digits2_bounds p) as [Hlo _].
  assert (2 ^ (Zpos (digits2_pos p) - 1) < 2 ^ j)%Z by lia.
  apply Z.pow_lt_mono_r_iff in H; lia.
Qed.

Lemma shr_1_m (mrs : shr_record) :
  (0 <= shr_m mrs)%Z -> shr_m (shr_1 mrs) = Z.div2 (shr_m mrs).
Proof. destruct mrs as [[| [p | p |] | p] r s]; simpl; intros H; try reflexivity; lia. Qed.

Lemma shr_iter_m (k : positive) : forall mrs : shr_record,
  (0 <= shr_m mrs)%Z ->
  shr_m (SpecFloat.iter_pos shr_1 k mrs) = Z.shiftr (shr_m mrs) (Zpos k).
Proof.
  assert (Hnn : forall x, (0 <= shr_m x -> 0 <= shr_m (shr_1 x))%Z).
  { intros x Hx. rewrite shr_1_m by exact Hx. apply Z.div2_nonneg. exact Hx. }
  assert (Hit : forall j x, (forall y, (0 <= shr_m y)%Z ->
              shr_m (SpecFloat.iter_pos shr_1 j y) = Z.shiftr (shr_m y) (Zpos j)) ->
            (0 <= shr_m x -> 0 <= shr_m (SpecFloat.iter_pos shr_1 j x))%Z).
  { intros j x IH Hx. rewrite IH by exact Hx. apply Z.shiftr_nonneg. exact Hx. }
  induction k as [k IH | k IH |]; intros mrs H; simpl SpecFloat.iter_pos.
  - rewrite IH by auto. rewrite IH by auto. rewrite shr_1_m by auto.
    rewrite Z.div2_spec. do 2 (rewrite Z.shiftr_shiftr by lia). f_equal. lia.
  - rewrite IH by auto. rewrite IH by auto.
    rewrite Z.shiftr_shiftr by lia. f_equal. lia.
  - rewrite shr_1_m by auto. apply Z.div2_spec.
Qed.

Lemma shr_fexp_digits (m e : Z) (l : location) :
  (0 <= m)%Z ->
  (0 <= shr_m (fst (shr_fexp prec emax m e l)) /\
   Zdigits2 (shr_m (fst (shr_fexp prec emax m e l))) <= prec)%Z.
Proof.
  intros Hm. unfold shr_fexp, shr.
  assert (Hrec : shr_m (shr_record_of_loc m l) = m)
    by (destruct l as [| []]; reflexivity).
  assert (Hfexp : (Zdigits2 m + e - prec <= fexp prec emax (Zdigits2 m + e))%Z)
    by (unfold fexp; lia).
  destruct (fexp prec emax (Zdigits2 m + e) - e)%Z as [| k | k] eqn:E; simpl fst.
  - rewrite Hrec. lia.
  - rewrite shr_iter_m, Hrec by (rewrite Hrec; exact Hm).
    split; [apply Z.shiftr_nonneg; exact Hm |].
    destruct (Z.eq_dec m 0%Z) as [-> | Hnz]; [rewrite Z.shiftr_0_l; simpl; unfold prec; lia |].
    apply Zdigits2_le; [unfold prec; lia |].
    split; [apply Z.shiftr_nonneg; exact Hm |].
    rewrite Z.shiftr_div_pow2 by lia.
    assert (Hd : (m < 2 ^ Zdigits2 m)%Z).
    { destruct m as [| p | p]; [lia | apply digits2_bounds | lia]. }
    assert (Hk : (Zdigits2 m - prec <= Zpos k)%Z) by lia.
    apply Z.div_lt_upper_bound; [lia |].
    rewrite <- Z.pow_add_r by (unfold prec; lia).
    eapply Z.lt_le_trans; [exact Hd |].
    apply Z.pow_le_mono_r; lia.
  - rewrite Hrec. lia.
Qed.

Lemma round_nearest_even_nonneg (m : Z) (l : location) :
  (0 <= m -> 0 <= round_nearest_even m l)%Z.
Proof.
  intros H. destruct l as [| []]; simpl; try lia.
  destruct (Z.even m); lia.
Qed.

Lemma binary_round_aux_in_range (s : bool) (m e : Z) (l : location) :
  (0 <= m)%Z -> in_range (binary_round_aux prec emax s m e l).
Proof.
  intros Hm. unfold binary_round_aux.
  pose proof (shr_fexp_digits m e l Hm) as [H1 _].
  destruct (shr_fexp prec emax m e l) as [mrs' e'].
  simpl fst in H1.
  pose proof (shr_fexp_digits _ e' loc_Exact
                (round_nearest_even_nonneg _ (loc_of_shr_record mrs') H1)) as [_ H2].
  destruct (shr_fexp prec emax _ e' loc_Exact) as [mrs'' e''].
  simpl fst in H2.
  destruct (shr_m mrs'') as [| p | p]; simpl; auto.
  destruct (Z.leb_spec e'' (emax - prec)); simpl; auto.
Qed.

Lemma mul_in_range (x y : float) : in_range (mul x y).
Proof.
  destruct x as [| | | sx mx ex], y as [| | | sy my ey]; simpl; auto.
  apply binary_round_aux_in_range. lia.
Qed.

Lemma binary_normalize_in_range (m e : Z) (sz : bool) :
  in_range (binary_normalize prec emax m e sz).
Proof.
  destruct m as [| p | p]; simpl; auto; unfold binary_round;
    destruct (shl_align _ _ _) as [mz ez];
    apply binary_round_aux_in_range; lia.
Qed.

Lemma add_in_range (x y : float) : in_range x -> in_range y -> in_range (add x y).
Proof.
  destruct x as [[] | [] | | sx mx ex], y as [[] | [] | | sy my ey];
    simpl; auto; intros _ _.
  apply binary_normalize_in_range.
Qed.

Lemma div_in_range (x y : float) : in_range (div x y).
Proof.
  destruct x as [| | | sx mx ex], y as [| | | sy my ey]; simpl; auto.
  unfold SFdiv_core_binary.
  set (m' := match _ with Z0 => Zpos mx | Zpos _ => _ | Zneg _ => 0%Z end).
  assert (Hm' : (0 <= m')%Z).
  { subst m'. destruct (_ - _ - _)%Z; try lia. apply Z.shiftl_nonneg. lia. }
  pose proof (Z_div_mod m' (Zpos my) eq_refl) as Hdm.
  destruct (Z.div_eucl m' (Zpos my)) as [q r].
  apply binary_round_aux_in_range. nia.
Qed.

Lemma Zdigits2_unique (x j : Z) :
  (2 ^ (j - 1) <= x < 2 ^ j -> 0 < j -> Zdigits2 x = j)%Z.
Proof.
  intros [Hlo Hhi] Hj.
  assert (Hx : (0 < x)%Z) by (pose proof (Z.pow_pos_nonneg 2 (j - 1)); lia).
  destruct x as [| p | p]; try lia. simpl.
  pose proof (digits2_bounds p) as [Hlo' Hhi'].
  assert (H1 : (2 ^ (j - 1) < 2 ^ Zpos (digits2_pos p))%Z) by lia.
  assert (H2 : (2 ^ (Zpos (digits2_pos p) - 1) < 2 ^ j)%Z) by lia.
  apply Z.pow_lt_mono_r_iff in H1; [| lia | lia].
  apply Z.pow_lt_mono_r_iff in H2; lia.
Qed.

(** Shifting out zero bits is exact. *)
Lemma shr_1_exact (q : Z) :
  (0 <= q)%Z ->
  shr_1 (Build_shr_record (2 * q) false false) = Build_shr_record q false false.
Proof. destruct q as [| p | p]; intros H; try reflexivity; lia. Qed.

Lemma pow2_xO (k : positive) : (2 ^ Zpos k~0 = 2 ^ Zpos k * 2 ^ Zpos k)%Z.
Proof. rewrite <- Z.pow_add_r by lia. f_equal. lia. Qed.

Lemma pow2_xI (k : positive) : (2 ^ Zpos k~1 = 2 * (2 ^ Zpos k * 2 ^ Zpos k))%Z.
Proof. rewrite <- Z.pow_add_r, <- Z.pow_succ_r by lia. f_equal. lia. Qed.

Lemma shr_iter_exact (k : positive) : forall q : Z,
  (0 <= q)%Z ->
  SpecFloat.iter_pos shr_1 k (Build_shr_record (q * 2 ^ Zpos k) false false) =
  Build_shr_record q false false.
Proof.
  induction k as [k IH | k IH |]; intros q Hq; cbn [SpecFloat.iter_pos];
    try pose proof (Z.pow_pos_nonneg 2 (Zpos k) eq_refl (Pos2Z.is_nonneg k)) as Hp.
  - replace (q * 2 ^ Zpos k~1)%Z with (2 * ((q * 2 ^ Zpos k) * 2 ^ Zpos k))%Z
      by (rewrite pow2_xI; ring).
    rewrite shr_1_exact by nia. rewrite IH by nia. apply IH. exact Hq.
  - replace (q * 2 ^ Zpos k~0)%Z with ((q * 2 ^ Zpos k) * 2 ^ Zpos k)%Z
      by (rewrite pow2_xO; ring).
    rewrite IH by nia. apply IH. exact Hq.
  - rewrite Z.pow_1_r, Z.mul_comm. apply shr_1_exact. exact Hq.
Qed.

Lemma shr_fexp_noshift (m e : Z) (l : location) :
  fexp prec emax (Zdigits2 m + e) = e ->
  shr_fexp prec emax m e l = (shr_record_of_loc m l, e).
Proof. intros H. unfold shr_fexp. rewrite H, Z.sub_diag. reflexivity. Qed.

(** When the first shift leaves an exact, canonical mantissa the rounding
    step returns it unchanged. *)
Lemma binary_round_aux_exact (s : bool) (mx ex : Z) (lx : location)
      (q : positive) (e' : Z) :
  shr_fexp prec emax mx ex lx = (Build_shr_record (Zpos q) false false, e') ->
  fexp prec emax (Zpos (digits2_pos q) + e') = e' ->
  (e' <= emax - prec)%Z ->
  binary_round_aux prec emax s mx ex lx = S754_finite s q e'.
Proof.
  intros H1 H2 H3. unfold binary_round_aux. rewrite H1.
  cbn [shr_m loc_of_shr_record round_nearest_even].
  rewrite shr_fexp_noshift by exact H2.
  cbn [shr_record_of_loc shr_m].
  apply Z.leb_le in H3. rewrite H3. reflexivity.
Qed.

Lemma iter_xO_pow (p k : positive) :
  Zpos (Pos.iter xO p k) = (Zpos p * 2 ^ Zpos k)%Z.
Proof.
  induction k as [| k IH] using Pos.peano_ind.
  - simpl. lia.
  - rewrite Pos.iter_succ, Pos2Z.inj_xO, IH, Pos2Z.inj_succ, Z.pow_succ_r by lia.
    ring.
Qed.

Lemma digits2_shift (M : positive) (e : Z) (P : positive) :
  (0 <= e)%Z -> Zpos P = (Zpos M * 2 ^ e)%Z ->
  Zpos (digits2_pos P) = (Zpos (digits2_pos M) + e)%Z.
Proof.
  intros He HP.
  change (Zpos (digits2_pos P)) with (Zdigits2 (Zpos P)).
  apply Zdigits2_unique; [| lia].
  pose proof (digits2_bounds M) as [Hlo Hhi].
  pose proof (Z.pow_pos_nonneg 2 e eq_refl He) as Hpe.
  rewrite HP.
  replace (Zpos (digits2_pos M) + e - 1)%Z with ((Zpos (digits2_pos M) - 1) + e)%Z by lia.
  rewrite !Z.pow_add_r by lia. nia.
Qed.

Lemma fexp_digits (D : Z) : (0 < D)%Z -> fexp prec emax D = (D - prec)%Z.
Proof. intros H. unfold fexp, emin, prec, emax. lia. Qed.

(** Converting [M * 2 ^ e], with [M] of at most 53 bits and [e] in range,
    is exact. *)
Lemma binary_round_representable (s : bool) (P M : positive) (e : Z) :
  (0 <= e <= emax - prec)%Z ->
  (Zpos (digits2_pos M) <= prec)%Z ->
  Zpos P = (Zpos M * 2 ^ e)%Z ->
  exists (m' : positive) (e' : Z),
    binary_round prec emax s P 0 = S754_finite s m' e' /\
    ((0 <= e' /\ Zpos P = Zpos m' * 2 ^ e') \/
     (e' < 0 /\ Zpos m' = Zpos P * 2 ^ (- e')))%Z /\
    Zpos (digits2_pos m') = prec /\
    (- prec < e' <= emax - prec)%Z.
Proof.
  intros He Hd HP.
  pose proof (digits2_shift M e P (proj1 He) HP) as HD.
  assert (HDpos : (0 < Zpos (digits2_pos P))%Z) by lia.
  unfold binary_round, shl_align.
  rewrite Z.add_0_r, Z.sub_0_r, (fexp_digits _ HDpos).
  destruct (Zpos (digits2_pos P) - prec)%Z as [| k | k] eqn:E.
  - exists P, 0%Z.
    split; [| split; [left; split; [lia | rewrite Z.pow_0_r; lia] |
                      unfold emax, prec in *; lia]].
    apply binary_round_aux_exact; [apply shr_fexp_noshift | | unfold emax, prec; lia];
      cbn [Zdigits2]; rewrite Z.add_0_r, (fexp_digits _ HDpos); exact E.
  - assert (Hk : (Zpos k <= e)%Z) by lia.
    pose proof (Z.pow_pos_nonneg 2 (e - Zpos k) eq_refl ltac:(lia)) as Hpow.
    assert (Hq : (Zpos (Z.to_pos (Zpos M * 2 ^ (e - Zpos k))) = Zpos M * 2 ^ (e - Zpos k))%Z)
      by (rewrite Z2Pos.id; nia).
    set (q := Z.to_pos (Zpos M * 2 ^ (e - Zpos k))) in *.
    assert (HPq : (Zpos P = Zpos q * 2 ^ Zpos k)%Z).
    { rewrite HP, Hq, <- Z.mul_assoc, <- Z.pow_add_r by lia. do 2 f_equal. lia. }
    assert (Hdq : Zpos (digits2_pos q) = (Zpos (digits2_pos M) + (e - Zpos k))%Z)
      by (apply digits2_shift; [lia | exact Hq]).
    exists q, (Zpos k).
    split; [| split; [left; split; [lia | exact HPq] | lia]].
    apply binary_round_aux_exact.
    + unfold shr_fexp. cbn [Zdigits2]. rewrite Z.add_0_r, (fexp_digits _ HDpos), Z.sub_0_r, E.
      unfold shr. cbn [shr_record_of_loc]. rewrite HPq, shr_iter_exact by lia.
      reflexivity.
    + rewrite Hdq, fexp_digits by lia. lia.
    + lia.
  - pose proof (iter_xO_pow P k) as Hmz.
    assert (Hdz : Zpos (digits2_pos (Pos.iter xO P k)) = (Zpos (digits2_pos P) + Zpos k)%Z)
      by (apply digits2_shift; [lia | exact Hmz]).
    exists (Pos.iter xO P k), (Zneg k).
    split; [| split; [right; split; [lia | exact Hmz] | unfold emax, prec in *; lia]].
    apply binary_round_aux_exact; [apply shr_fexp_noshift | | unfold emax, prec; lia];
      cbn [Zdigits2]; rewrite Hdz, fexp_digits by lia; lia.
Qed.

Lemma finite_to_Q_exact (s : bool) (P m' : positive) (e' : Z) :
  ((0 <= e' /\ Zpos P = Zpos m' * 2 ^ e') \/
   (e' < 0 /\ Zpos m' = Zpos P * 2 ^ (- e')))%Z ->
  (to_Q (S754_finite s m' e') == inject_Z (cond_Zopp s (Zpos P)))%Q.
Proof.
  intros [[He HP] | [He HP]].
  - assert (Hv : to_Q (S754_finite s m' e') = inject_Z (mant s m' * 2 ^ e'))
      by (destruct e'; try reflexivity; lia).
    rewrite Hv. unfold mant. destruct s; cbn [cond_Zopp];
      [rewrite Z.mul_opp_l, <- HP | rewrite <- HP]; reflexivity.
  - destruct e' as [| k | k]; try lia.
    change (- Zneg k)%Z with (Zpos k) in HP. unfold to_Q, mant, Qeq.
    simpl Qnum. simpl Qden. rewrite Pos2Z.inj_pow.
    destruct s; cbn [cond_Zopp]; rewrite HP; ring.
Qed.

Lemma of_Z_exact (n : Z) :
  representable n ->
  is_finite (of_Z n) = true /\ (to_Q (of_Z n) == inject_Z n)%Q.
Proof.
  intros [-> | (M & e & Hn & He & Hd)]; [split; reflexivity |].
  pose proof (Z.pow_pos_nonneg 2 e eq_refl (proj1 He)) as Hpow.
  destruct n as [| P | P]; [simpl in Hn; nia | |]; simpl Z.abs in Hn;
    unfold of_Z, binary_normalize.
  - destruct (binary_round_representable false P M e He Hd Hn) as (m' & e' & -> & Hv & _).
    split; [reflexivity | apply (finite_to_Q_exact false), Hv].
  - destruct (binary_round_representable true P M e He Hd Hn) as (m' & e' & -> & Hv & _).
    split; [reflexivity | apply (finite_to_Q_exact true), Hv].
Qed.

Lemma float_of_int_representable (n : Z) :
  representable n -> float_of_int n = Ok (of_Z n).
Proof.
  intros H. apply of_Z_exact in H as [Hf _]. unfold float_of_int.
  destruct (of_Z n); try reflexivity. discriminate Hf.
Qed.

(** [int(x)] of a double is representable. *)
Lemma float_int_representable (x : float) (t : Z) :
  in_range x -> float_int x = Ok t -> representable t.
Proof.
  destruct x as [s | s | | s m e]; simpl; try discriminate.
  - intros _ [= <-]. left. reflexivity.
  - intros [Hd He] [= <-].
    destruct e as [| p | k].
    + right. exists m, 0%Z. rewrite Z.shiftl_0_r.
      repeat split; try (unfold emax, prec in *; lia).
      destruct s; simpl; lia.
    + right. exists m, (Zpos p). rewrite Z.shiftl_mul_pow2 by lia.
      repeat split; try lia.
      pose proof (Z.pow_pos_nonneg 2 (Zpos p) eq_refl ltac:(lia)).
      destruct s; simpl cond_Zopp; [rewrite Z.abs_opp |]; apply Z.abs_eq; nia.
    + rewrite shiftl_neg.
      pose proof (digits2_bounds m) as [_ Hm].
      assert (Hq : (0 <= Zpos m / Zpos (2 ^ k) <= Zpos m)%Z).
      { split; [apply Z.div_pos; lia |].
        apply Z.div_le_upper_bound; [lia |]. nia. }
      destruct (Zpos m / Zpos (2 ^ k))%Z as [| q | q] eqn:Eq; try lia.
      * left. destruct s; reflexivity.
      * right. exists q, 0%Z.
        repeat split; try (unfold emax, prec in *; lia).
        -- destruct s; simpl; lia.
        -- change (Zpos (digits2_pos q)) with (Zdigits2 (Zpos q)).
           apply Zdigits2_le; [unfold prec; lia |].
           split; [lia |].
           eapply Z.le_lt_trans; [apply Hq |].
           eapply Z.lt_le_trans; [exact Hm |].
           apply Z.pow_le_mono_r; lia.
Qed.

Lemma round_int_Z (z : Z) : round_int (inject_Z z) = z.
Proof.
  apply (nearest_even_unique (inject_Z z)); [apply round_int_nearest_even |].
  split.
  - apply Qabs_le_half. lra.
  - intros [H | H]%Qabs_half; lra.
Qed.

Lemma representable_small (n : Z) :
  (Z.abs n < 2 ^ prec)%Z -> representable n.
Proof.
  intros H. destruct (Z.eq_dec n 0%Z) as [-> | Hn]; [left; reflexivity | right].
  exists (Z.to_pos (Z.abs n)), 0%Z.
  assert (Hpos : Zpos (Z.to_pos (Z.abs n)) = Z.abs n) by (apply Z2Pos.id; lia).
  repeat split; try (unfold emax, prec in *; lia).
  change (Zpos (digits2_pos (Z.to_pos (Z.abs n)))) with (Zdigits2 (Zpos (Z.to_pos (Z.abs n)))).
  rewrite Hpos. apply Zdigits2_le; [unfold prec; lia | lia].
Qed.

(** [round(x)] of a double is representable. *)
Lemma float_round_representable (x : float) (n : Z) :
  in_range x -> float_round x = Ok n -> representable n.
Proof.
  destruct x as [s | s | | s m e]; simpl in_range; simpl float_round;
    try discriminate.
  - intros _ [= <-]. left. reflexivity.
  - intros [Hd He] [= <-].
    destruct e as [| p | k]; unfold to_Q.
    + rewrite round_int_Z. right. exists m, 0%Z.
      repeat split; try (unfold emax, prec in *; lia).
      unfold mant. destruct s; simpl; lia.
    + rewrite round_int_Z. right. exists m, (Zpos p).
      repeat split; try lia.
      pose proof (Z.pow_pos_nonneg 2 (Zpos p) eq_refl ltac:(lia)).
      unfold mant. destruct s; cbn [cond_Zopp];
        [rewrite Z.mul_opp_l, Z.abs_opp |]; apply Z.abs_eq; nia.
    + apply representable_small.
      pose proof (round_int_nearest_even (mant s m # 2 ^ k)) as [Hn _].
      apply Qabs_le_half in Hn.
      set (n := round_int (mant s m # 2 ^ k)) in *.
      pose proof (digits2_bounds m) as [_ Hm].
      assert (Hm53 : (Zpos m < 2 ^ 53)%Z).
      { eapply Z.lt_le_trans; [exact Hm |].
        apply Z.pow_le_mono_r; unfold prec in Hd; lia. }
      assert (Hk : (2 <= Zpos (2 ^ k))%Z).
      { rewrite Pos2Z.inj_pow. change 2%Z with (2 ^ 1)%Z at 1.
        apply Z.pow_le_mono_r; lia. }
      assert (Hv : (- 4503599627370496 < mant s m # 2 ^ k < 4503599627370496)%Q).
      { unfold Qlt, mant. simpl Qnum. simpl Qden.
        change (2 ^ 53)%Z with 9007199254740992%Z in Hm53.
        destruct s; cbn [cond_Zopp]; lia. }
      assert (Hlt : (n < 4503599627370497)%Z).
      { rewrite Zlt_Qlt.
        change (inject_Z 4503599627370497) with 4503599627370497%Q. lra. }
      assert (Hgt : (-4503599627370497 < n)%Z).
      { rewrite Zlt_Qlt.
        change (inject_Z (-4503599627370497)) with (-4503599627370497)%Q. lra. }
      unfold prec. change (2 ^ 53)%Z with 9007199254740992%Z. lia.
Qed.

(** Halving a normal double only lowers its exponent. *)
Lemma div_two_exact (s : bool) (m : positive) (e : Z) :
  Zpos (digits2_pos m) = prec ->
  (- prec < e <= emax - prec)%Z ->
  div (S754_finite s m e) two = S754_finite s m (e - 1).
Proof.
  intros Hd He. unfold div, two.
  change (of_Z 2) with (S754_finite false 4503599627370496 (-51)).
  unfold SFdiv, SFdiv_core_binary. cbn [Zdigits2].
  rewrite Hd. change (Zpos (digits2_pos 4503599627370496)) with prec.
  replace (prec + e - (prec + -51))%Z with (e + 51)%Z by lia.
  replace (e - -51)%Z with (e + 51)%Z by lia.
  assert (Hf : fexp prec emax (e + 51) = (e - 2)%Z)
    by (unfold fexp, emin, prec, emax in *; lia).
  rewrite Hf, Z.min_l by lia.
  replace (e + 51 - (e - 2))%Z with 53%Z by lia.
  rewrite Z.shiftl_mul_pow2 by lia.
  change (2 ^ 53)%Z with (2 * 4503599627370496)%Z.
  pose proof (Z_div_mod (Zpos m * (2 * 4503599627370496)) 4503599627370496 eq_refl)
    as Hdm.
  destruct (Z.div_eucl (Zpos m * (2 * 4503599627370496)) 4503599627370496)
    as [q r].
  assert (Hq : q = Zpos (m~0) /\ r = 0%Z) by lia.
  destruct Hq as [-> ->]. rewrite xorb_false_r.
  change (new_location 4503599627370496 0) with loc_Exact.
  replace (e - 1)%Z with (e - 2 + 1)%Z by lia.
  apply binary_round_aux_exact.
  - unfold shr_fexp. cbn [Zdigits2 digits2_pos]. rewrite Pos2Z.inj_succ, Hd.
    replace (fexp prec emax (Z.succ prec + (e - 2)) - (e - 2))%Z with 1%Z
      by (unfold fexp, emin, prec, emax in *; lia).
    reflexivity.
  - rewrite Hd. unfold fexp, emin, prec, emax in *. lia.
  - lia.
Qed.

Lemma to_Q_nonneg_exp (s : bool) (m : positive) (e : Z) :
  (0 <= e)%Z -> to_Q (S754_finite s m e) = inject_Z (mant s m * 2 ^ e).
Proof. destruct e; try reflexivity; lia. Qed.

Lemma to_Q_half (s : bool) (m : positive) (e : Z) :
  (to_Q (S754_finite s m (e - 1)) == to_Q (S754_finite s m e) * (1 # 2))%Q.
Proof.
  destruct e as [| p | k].
  - unfold Qeq. simpl. lia.
  - rewrite !to_Q_nonneg_exp by lia.
    replace (2 ^ Zpos p)%Z with (2 * 2 ^ (Zpos p - 1))%Z
      by (rewrite <- Z.pow_succ_r by lia; f_equal; lia).
    unfold Qeq. simpl Qnum. simpl Qden. lia.
  - change (Zneg k - 1)%Z with (Zneg (k + 1)).
    unfold to_Q, Qeq. simpl Qnum. simpl Qden.
    rewrite Pos.add_1_r, Pos.pow_succ_r, !Pos2Z.inj_mul. lia.
Qed.

(** A representable integer is converted to the double of that value, and
    halving that double is exact. *)
Lemma of_Z_half_exact (n : Z) :
  representable n ->
  is_finite (div (of_Z n) two) = true /\
  (to_Q (div (of_Z n) two) == inject_Z n * (1 # 2))%Q.
Proof.
  intros [-> | (M & e & Hn & He & Hd)]; [split; reflexivity |].
  pose proof (Z.pow_pos_nonneg 2 e eq_refl (proj1 He)) as Hpow.
  destruct n as [| P | P]; [simpl in Hn; nia | |]; simpl Z.abs in Hn;
    unfold of_Z, binary_normalize.
  - destruct (binary_round_representable false P M e He Hd Hn)
      as (m' & e' & -> & Hv & Hdig & Hrange).
    rewrite (div_two_exact _ _ _ Hdig Hrange). split; [reflexivity |].
    rewrite to_Q_half, (finite_to_Q_exact false P m' e' Hv). reflexivity.
  - destruct (binary_round_representable true P M e He Hd Hn)
      as (m' & e' & -> & Hv & Hdig & Hrange).
    rewrite (div_two_exact _ _ _ Hdig Hrange). split; [reflexivity |].
    rewrite to_Q_half, (finite_to_Q_exact true P m' e' Hv). reflexivity.
Qed.

End Exact_conversion.

(** ** The library meets its formulas *)

Section Library_facts.
Import F64 Py Spec GueCalcLib.

Lemma bind_Ok {A B : Type} (a : A) (f : A -> result B) :
  (x ← Ok a; f x) = f a.
Proof. reflexivity. Qed.

Lemma divisor_not_zero (water : string) : is_zero (divisor water) = false.
Proof. unfold divisor. case_decide; reflexivity. Qed.

Lemma calcTimeToStop_switch (depth sw : float) :
  gtb sw zero = true ->
  calcTimeToStop depth sw = float_int (add (div (sub depth sw) ten) two).
Proof.
  intros H. unfold calcTimeToStop. rewrite H.
  rewrite truediv_nonzero by reflexivity. reflexivity.
Qed.

Lemma calcTimeToStop_surface (depth sw : float) :
  gtb sw zero = false ->
  calcTimeToStop depth sw = float_int (add (div depth ten) one).
Proof.
  intros H. unfold calcTimeToStop. rewrite H.
  rewrite truediv_nonzero by reflexivity. reflexivity.
Qed.

Lemma calcMOD_positive (f_o2 ppo2_limit : float) (water : string) :
  gtb f_o2 zero = true ->
  calcMOD f_o2 ppo2_limit water =
  float_int (mul (sub (div ppo2_limit f_o2) one) (divisor water)).
Proof.
  intros H. unfold calcMOD.
  rewrite (gtb_zero_not_leb _ H), (truediv_nonzero _ _ (gtb_zero_not_zero _ H)).
  reflexivity.
Qed.

Lemma calcEND_formula (depth f_he : float) (water : string) :
  calcEND depth f_he water =
  float_int
    (mul (sub (mul (add (div depth (divisor water)) one) (sub one f_he)) one)
         (divisor water)).
Proof.
  unfold calcEND. fold (divisor water).
  rewrite (truediv_nonzero _ _ (divisor_not_zero water)). reflexivity.
Qed.

Lemma calcATA_returns (depth : float) (water : string) :
  calcATA depth water =
  Ok (float_round_to (add (div depth (divisor water)) one) 1).
Proof.
  unfold calcATA. fold (divisor water).
  rewrite (truediv_nonzero _ _ (divisor_not_zero water)). reflexivity.
Qed.

Lemma nearest_even_morph (v w : Q) (n : Z) :
  (v == w)%Q -> nearest_even v n -> nearest_even w n.
Proof. unfold nearest_even. intros E. rewrite E. trivial. Qed.

(** [round(y, 1)]: the double nearest to [n / 10], where [n] is the
    integer nearest to ten times the magnitude of [y], halves to even. *)
Lemma float_round_to_1 (y : float) :
  is_finite y = true ->
  exists n : Z,
    nearest_even (10 * Qabs (to_Q y)) n /\
    float_round_to y 1 = of_ratio (sign y) n 10.
Proof.
  destruct y as [s | s | | s m e]; try discriminate; intros _.
  - exists 0%Z. split; [| destruct s; reflexivity].
    split; [vm_compute; discriminate | vm_compute; discriminate].
  - eexists. split; [| reflexivity].
    eapply nearest_even_morph; [| apply Qround_even_nearest].
    apply Qmult_comm.
Qed.

Lemma methods_lookup (method : string) :
  methods !! method =
  if decide (method = "ALL"%string) then Some 1%Z
  else if decide (method = "HALF"%string) then Some 2%Z
  else if decide (method = "THIRDS"%string) then Some 3%Z
  else None.
Proof.
  unfold methods. repeat case_decide; subst; try reflexivity.
  rewrite !lookup_insert_ne by congruence. apply lookup_singleton_ne. congruence.
Qed.

Lemma calcSCR_cases (v ata minutes : float) :
  calcSCR v ata minutes =
  if is_zero ata || is_zero minutes then Raise ZeroDivisionError
  else Ok (div (div v ata) minutes).
Proof.
  unfold calcSCR, truediv. rewrite !eqb_zero_is_zero.
  destruct (is_zero ata), (is_zero minutes); reflexivity.
Qed.

Lemma calcTF_formula (rated_vol rated_psi : float) :
  is_zero rated_psi = false ->
  calcTF rated_vol rated_psi =
  (n ← float_round (mul (mul (div rated_vol rated_psi) (of_Z 100)) two);
   nf ← float_of_int n;
   Ok (div nf two)).
Proof.
  intros H. unfold calcTF. rewrite (truediv_nonzero _ _ H). reflexivity.
Qed.

Lemma calcMG_formula (depth sw c : float) :
  calcMG depth sw c =
  (t ← calcTimeToStop depth sw;
   tf ← float_of_int t;
   math_floor
     (add (mul (mul c (div (add (float_round_to (add (div depth (of_Z 33)) one) 1)
                                (float_round_to (add (div sw (of_Z 33)) one) 1))
                           two))
               tf)
          half)).
Proof.
  unfold calcMG. rewrite !calcATA_returns. reflexivity.
Qed.

Lemma calcTimeToStop_representable (depth sw : float) (t : Z) :
  calcTimeToStop depth sw = Ok t -> representable t.
Proof.
  assert (Hc : forall q c, in_range c -> in_range (add (div q ten) c))
    by (intros q c Hc; apply add_in_range; [apply div_in_range | exact Hc]).
  destruct (gtb sw zero) eqn:E.
  - rewrite (calcTimeToStop_switch _ _ E). apply float_int_representable, Hc.
    cbv. split; discriminate.
  - rewrite (calcTimeToStop_surface _ _ E). apply float_int_representable, Hc.
    cbv. split; discriminate.
Qed.

End Library_facts.

(** C5.  For a gas-switch depth above zero [calcTimeToStop] returns the
    truncation toward zero of [((depth - gas_switch_depth) / 10) + 2], and
    for a gas-switch depth that is zero or negative the truncation toward
    zero of [depth / 10 + 1]; it returns exactly when that float is finite.
    [calcTimeToStop(100) = 11], [calcTimeToStop(30) = 4],
    [calcTimeToStop(100, 70) = 5]; on [-15] the result is [0], the
    truncation of [-0.5], not its floor. *)
Theorem calcTimeToStop_truncates (depth sw : float) :
  (gtb sw zero = true ->
   forall n : Z,
     calcTimeToStop depth sw = Ok n <->
     is_finite (add (div (sub depth sw) ten) two) = true /\
     n = Spec.Qtrunc (to_Q (add (div (sub depth sw) ten) two))) /\
  (leb sw zero = true ->
   forall n : Z,
     calcTimeToStop depth sw = Ok n <->
     is_finite (add (div depth ten) one) = true /\
     n = Spec.Qtrunc (to_Q (add (div depth ten) one))) /\
  calcTimeToStop (of_Z 100) zero = Ok 11%Z /\
  calcTimeToStop (of_Z 30) zero = Ok 4%Z /\
  calcTimeToStop (of_Z 100) (of_Z 70) = Ok 5%Z /\
  calcTimeToStop (of_Z (-15)) zero = Ok 0%Z.
Proof.
  split; [| split; [| repeat split; vm_compute; reflexivity]].
  - intros H n. rewrite (calcTimeToStop_switch _ _ H). apply float_int_spec.
  - intros H n. rewrite (calcTimeToStop_surface _ _ (leb_zero_not_gtb _ H)).
    apply float_int_spec.
Qed.

Lemma calcTimeToStop_truncates_witness :
  is_finite (add (div (sub (of_Z 100) (of_Z 70)) ten) two) = true /\
  5%Z = Spec.Qtrunc (to_Q (add (div (sub (of_Z 100) (of_Z 70)) ten) two)).
Proof.
  apply (proj1 (proj1 (calcTimeToStop_truncates (of_Z 100) (of_Z 70)) eq_refl 5%Z)).
  vm_compute. reflexivity.
Defined.

(** C10.  The wrapper [calcTimeToSurface(depth)] returns what
    [calcTimeToStop(depth, 0)] returns. *)
Theorem calcTimeToSurface_calcTimeToStop (depth : float) :
  calcTimeToSurface depth = calcTimeToStop depth zero.
Proof. reflexivity. Qed.

(** C4.  For an oxygen fraction at or below zero [calcMOD] returns [0];
    for an oxygen fraction above zero it returns the truncation toward zero
    of [(ppo2_limit / f_o2 - 1) * divisor], the divisor being 34 for
    ['fresh'] and 33 for any other water, and it returns exactly when that
    float is finite.  [calcMOD(0.32) = 111],
    [calcMOD(0.32, ppo2_limit=1.6) = 132], [calcMOD(1.0, ppo2_limit=1.6) = 19]. *)
Theorem calcMOD_truncates (f_o2 ppo2_limit : float) (water : string) :
  (leb f_o2 zero = true -> calcMOD f_o2 ppo2_limit water = Ok 0%Z) /\
  (gtb f_o2 zero = true ->
   forall n : Z,
     calcMOD f_o2 ppo2_limit water = Ok n <->
     is_finite (mul (sub (div ppo2_limit f_o2) one) (Spec.divisor water)) = true /\
     n = Spec.Qtrunc
           (to_Q (mul (sub (div ppo2_limit f_o2) one) (Spec.divisor water)))) /\
  Spec.divisor "fresh" = of_Z 34 /\
  (water <> "fresh"%string -> Spec.divisor water = of_Z 33) /\
  calcMOD (dec 32 2) (dec 14 1) "salt" = Ok 111%Z /\
  calcMOD (dec 32 2) (dec 16 1) "salt" = Ok 132%Z /\
  calcMOD one (dec 16 1) "salt" = Ok 19%Z.
Proof.
  split; [| split; [| split; [| split; [| repeat split; vm_compute; reflexivity]]]].
  - intros H. unfold calcMOD. rewrite H. reflexivity.
  - intros H n. rewrite (calcMOD_positive _ _ _ H). apply float_int_spec.
  - reflexivity.
  - intros H. unfold Spec.divisor. case_decide; [contradiction | reflexivity].
Qed.

Lemma calcMOD_truncates_witness :
  is_finite (mul (sub (div (dec 14 1) (dec 32 2)) one) (Spec.divisor "salt")) = true /\
  111%Z = Spec.Qtrunc
            (to_Q (mul (sub (div (dec 14 1) (dec 32 2)) one) (Spec.divisor "salt"))).
Proof.
  apply (proj1 (proj1 (proj2 (calcMOD_truncates (dec 32 2) (dec 14 1) "salt"))
                      eq_refl 111%Z)).
  vm_compute. reflexivity.
Defined.

(** C7.  [calcEND] returns the truncation toward zero of
    [(narcotic_ata - 1) * divisor] with [ata = depth / divisor + 1] and
    [narcotic_ata = ata * (1 - f_he)], the divisor being 34 for ['fresh']
    and 33 for any other water; it returns exactly when that float is
    finite.  [calcEND(150, 0.45) = 67] and [calcEND(100, 0.30) = 60]. *)
Theorem calcEND_truncates (depth f_he : float) (water : string) :
  let ata := add (div depth (Spec.divisor water)) one in
  let narcotic_ata := mul ata (sub one f_he) in
  (forall n : Z,
     calcEND depth f_he water = Ok n <->
     is_finite (mul (sub narcotic_ata one) (Spec.divisor water)) = true /\
     n = Spec.Qtrunc (to_Q (mul (sub narcotic_ata one) (Spec.divisor water)))) /\
  Spec.divisor "fresh" = of_Z 34 /\
  (water <> "fresh"%string -> Spec.divisor water = of_Z 33) /\
  calcEND (of_Z 150) (dec 45 2) "salt" = Ok 67%Z /\
  calcEND (of_Z 100) (dec 30 2) "salt" = Ok 60%Z.
Proof.
  intros ata narcotic_ata.
  split; [| split; [| split; [| split; vm_compute; reflexivity]]].
  - intros n. rewrite calcEND_formula. apply float_int_spec.
  - reflexivity.
  - intros H. unfold Spec.divisor. case_decide; [contradiction | reflexivity].
Qed.

(** C6.  [calcATA] returns [1 + depth / divisor] rounded to one decimal
    place, the divisor being 34 for ['fresh'] and 33 for ['salt'] and any
    other water.  Rounding a finite float to one decimal place gives the
    double nearest to [n / 10], [n] the integer nearest to ten times its
    magnitude.  [calcATA(0) = 1.0] in both waters,
    [calcATA(33, 'salt') = 2.0], [calcATA(34, 'fresh') = 2.0]. *)
Theorem calcATA_rounds_one_place (depth : float) (water : string) :
  calcATA depth water =
  Ok (float_round_to (add one (div depth (Spec.divisor water))) 1) /\
  (forall y : float,
     is_finite y = true ->
     exists n : Z,
       Spec.nearest_even (10 * Qabs (to_Q y)) n /\
       float_round_to y 1 = of_ratio (sign y) n 10) /\
  Spec.divisor "fresh" = of_Z 34 /\
  Spec.divisor "salt" = of_Z 33 /\
  (water <> "fresh"%string -> Spec.divisor water = of_Z 33) /\
  calcATA zero "salt" = Ok one /\
  calcATA zero "fresh" = Ok one /\
  calcATA (of_Z 33) "salt" = Ok two /\
  calcATA (of_Z 34) "fresh" = Ok two.
Proof.
  split; [| split; [| split; [| split; [| split;
    [| repeat split; vm_compute; reflexivity]]]]].
  - rewrite calcATA_returns, add_comm. reflexivity.
  - exact float_round_to_1.
  - reflexivity.
  - reflexivity.
  - intros H. unfold Spec.divisor. case_decide; [contradiction | reflexivity].
Qed.

(** C8.  [nitrox_FO2] returns [0.0] when the nitrox pressure equals zero
    and the quotient [trimix_po2 / nitrox_p_val] otherwise; it never
    raises.  [nitrox_FO2(480.0, 0) = 0.0]. *)
Theorem nitrox_FO2_guarded (trimix_po2 nitrox_p_val : float) :
  (eqb nitrox_p_val zero = true -> nitrox_FO2 trimix_po2 nitrox_p_val = Ok zero) /\
  (eqb nitrox_p_val zero = false ->
   nitrox_FO2 trimix_po2 nitrox_p_val = Ok (div trimix_po2 nitrox_p_val)) /\
  (forall e : exn, nitrox_FO2 trimix_po2 nitrox_p_val <> Raise e) /\
  nitrox_FO2 (of_Z 480) zero = Ok zero.
Proof.
  unfold nitrox_FO2, truediv.
  destruct (eqb nitrox_p_val zero) eqn:E; repeat split;
    intros; try discriminate; reflexivity.
Qed.

Lemma nitrox_FO2_guarded_witness :
  nitrox_FO2 (of_Z 480) (of_Z 1800) = Ok (div (of_Z 480) (of_Z 1800)).
Proof.
  apply (proj1 (proj2 (nitrox_FO2_guarded (of_Z 480) (of_Z 1800)))).
  reflexivity.
Defined.

(** C9.  [calcUG] raises [KeyError] exactly when the method is none of
    ['ALL'], ['HALF'], ['THIRDS'], raises nothing else, and for those three
    returns [(curr_psi - mg_psi)] divided by 1, 2 and 3. *)
Theorem calcUG_methods (curr_psi mg_psi : float) (method : string) :
  (calcUG curr_psi mg_psi method = Raise KeyError <->
   method <> "ALL"%string /\ method <> "HALF"%string /\ method <> "THIRDS"%string) /\
  (forall e : exn, calcUG curr_psi mg_psi method = Raise e -> e = KeyError) /\
  calcUG curr_psi mg_psi "ALL" = Ok (div (sub curr_psi mg_psi) (of_Z 1)) /\
  calcUG curr_psi mg_psi "HALF" = Ok (div (sub curr_psi mg_psi) (of_Z 2)) /\
  calcUG curr_psi mg_psi "THIRDS" = Ok (div (sub curr_psi mg_psi) (of_Z 3)).
Proof.
  split; [| split; [| repeat split; reflexivity]];
    unfold calcUG; rewrite methods_lookup; repeat case_decide; subst.
  all: try (split; [discriminate | intros (? & ? & ?); congruence]).
  all: try (split; [intros _; auto | reflexivity]).
  all: try (intros e; discriminate).
  intros e [= <-]. reflexivity.
Qed.

(** C2 (as stated, refuted).  With 20 cubic feet at 3 ATA over 10 minutes
    [calcSCR] returns [0.6666666666666667], the quotient by the product is
    [0.6666666666666666]; and on [ata = minutes = 1e-200] the product
    [ata * minutes] is [0.0] while [calcSCR] raises nothing and returns
    [inf]. *)
Lemma calcSCR_not_quotient_by_product :
  calcSCR (of_Z 20) (of_Z 3) ten = Ok (S754_finite false 6004799503160662 (-53)) /\
  Spec.surfaceConsumptionRate (of_Z 20) (of_Z 3) ten =
    Ok (S754_finite false 6004799503160661 (-53)) /\
  calcSCR (of_Z 20) (of_Z 3) ten <> Spec.surfaceConsumptionRate (of_Z 20) (of_Z 3) ten /\
  eqb (mul (dec 1 200) (dec 1 200)) zero = true /\
  calcSCR one (dec 1 200) (dec 1 200) = Ok (S754_infinity false) /\
  Spec.surfaceConsumptionRate one (dec 1 200) (dec 1 200) = Raise ZeroDivisionError.
Proof.
  repeat split; try (vm_compute; reflexivity).
  vm_compute. discriminate.
Qed.

(** C2 (amended).  [calcSCR] raises [ZeroDivisionError] exactly when [ata]
    is zero or [minutes] is zero, raises nothing else, and on every other
    input returns [(volume_consumed / ata) / minutes], the two divisions in
    that order. *)
Theorem calcSCR_two_divisions (volume_consumed ata minutes : float) :
  (calcSCR volume_consumed ata minutes = Raise ZeroDivisionError <->
   eqb ata zero = true \/ eqb minutes zero = true) /\
  (forall e : exn,
     calcSCR volume_consumed ata minutes = Raise e -> e = ZeroDivisionError) /\
  (eqb ata zero = false -> eqb minutes zero = false ->
   calcSCR volume_consumed ata minutes = Ok (div (div volume_consumed ata) minutes)).
Proof.
  rewrite calcSCR_cases, !eqb_zero_is_zero.
  destruct (is_zero ata), (is_zero minutes); simpl; repeat split;
    try discriminate; try congruence; auto.
  all: intros [H | H]; discriminate H.
Qed.

Lemma calcSCR_two_divisions_witness :
  calcSCR (of_Z 20) (of_Z 3) ten = Ok (div (div (of_Z 20) (of_Z 3)) ten).
Proof.
  apply (proj2 (proj2 (calcSCR_two_divisions (of_Z 20) (of_Z 3) ten)));
    reflexivity.
Defined.

(** C1 (as stated, refuted).  For a 200 cubic-foot tank rated 3200 PSI the
    scaled quotient is exactly [12.5]; [calcTF] rounds it to 12 and returns
    [6.0], rounding half away from zero gives 13 and [6.5]. *)
Lemma calcTF_not_half_away :
  mul (mul (div (of_Z 200) (of_Z 3200)) (of_Z 100)) two = dec 125 1 /\
  calcTF (of_Z 200) (of_Z 3200) = Ok (of_Z 6) /\
  Spec.tankFactor_half_away (of_Z 200) (of_Z 3200) = Ok (dec 65 1) /\
  calcTF (of_Z 200) (of_Z 3200) <> Spec.tankFactor_half_away (of_Z 200) (of_Z 3200).
Proof.
  repeat split; try (vm_compute; reflexivity).
  vm_compute. discriminate.
Qed.

(** C1 (amended).  For a rated pressure above zero, [calcTF] returns
    [round(p) / 2] for the float [p = (rated_vol / rated_psi) * 100 * 2],
    where the rounding step picks the integer [n] nearest to [p] and the
    even one when [p] lies half-way; it returns exactly when [p] is finite,
    and the float returned has the exact value [n / 2].
    [calcTF(77, 3000) = 2.5], [calcTF(200, 3442) = 6.0],
    [calcTF(170, 2640) = 6.5], [calcTF(154, 3000) = 5.0]. *)
Theorem calcTF_rounds_half_even (rated_vol rated_psi : float) :
  gtb rated_psi zero = true ->
  let p := mul (mul (div rated_vol rated_psi) (of_Z 100)) two in
  (forall r : float,
     calcTF rated_vol rated_psi = Ok r <->
     is_finite p = true /\
     exists n : Z, Spec.nearest_even (to_Q p) n /\ r = div (of_Z n) two) /\
  (forall n : Z,
     is_finite p = true -> Spec.nearest_even (to_Q p) n ->
     is_finite (div (of_Z n) two) = true /\
     (to_Q (div (of_Z n) two) == inject_Z n * (1 # 2))%Q) /\
  calcTF (of_Z 77) (of_Z 3000) = Ok (dec 25 1) /\
  calcTF (of_Z 200) (of_Z 3442) = Ok (of_Z 6) /\
  calcTF (of_Z 170) (of_Z 2640) = Ok (dec 65 1) /\
  calcTF (of_Z 154) (of_Z 3000) = Ok (of_Z 5).
Proof.
  intros Hpos p.
  assert (Hrep : forall n, float_round p = Ok n -> representable n)
    by (intros n; apply float_round_representable, mul_in_range).
  split; [| split; [| repeat split; vm_compute; reflexivity]].
  - intros r. rewrite (calcTF_formula _ _ (gtb_zero_not_zero _ Hpos)). fold p.
    split.
    + destruct (float_round p) as [n | e] eqn:En; [| discriminate].
      rewrite bind_Ok, (float_of_int_representable n (Hrep n eq_refl)), bind_Ok.
      intros [= <-].
      apply float_round_spec in En as [Hfin Hn].
      split; [exact Hfin | exists n; auto].
    + intros (Hfin & n & Hn & ->).
      assert (En : float_round p = Ok n) by (apply float_round_spec; auto).
      rewrite En, bind_Ok, (float_of_int_representable n (Hrep n En)).
      reflexivity.
  - intros n Hfin Hn. apply of_Z_half_exact, Hrep, float_round_spec. auto.
Qed.

Lemma calcTF_rounds_half_even_witness :
  is_finite (dec 125 1) = true /\
  exists n : Z,
    Spec.nearest_even (to_Q (mul (mul (div (of_Z 200) (of_Z 3200)) (of_Z 100)) two)) n /\
    of_Z 6 = div (of_Z n) two.
Proof.
  apply (proj1 (proj1 (calcTF_rounds_half_even (of_Z 200) (of_Z 3200) eq_refl) (of_Z 6))).
  vm_compute. reflexivity.
Defined.

(** C3.  [calcMG] returns [floor(raw + 0.5)] with
    [raw = c * a * t], [a] the mean of [calcATA(depth)] and
    [calcATA(gas_switch_depth)] in salt water and [t] the minutes of
    [calcTimeToStop(depth, gas_switch_depth)], which enter the product
    without error; it returns exactly when [t] is returned and [raw + 0.5]
    is finite.  [calcMG(100) = 41]; a raw value of [2.5] gives 3, the half
    going up. *)
Theorem calcMG_floor_half_up (depth sw c : float) :
  exists a1 a2 : float,
    calcATA depth "salt" = Ok a1 /\
    calcATA sw "salt" = Ok a2 /\
    (forall n : Z,
       calcMG depth sw c = Ok n <->
       exists t : Z,
         calcTimeToStop depth sw = Ok t /\
         is_finite (add (mul (mul c (div (add a1 a2) two)) (of_Z t)) half) = true /\
         n = Qfloor (to_Q (add (mul (mul c (div (add a1 a2) two)) (of_Z t)) half))) /\
    (forall t : Z,
       calcTimeToStop depth sw = Ok t -> (to_Q (of_Z t) == inject_Z t)%Q) /\
    calcMG (of_Z 100) zero (dec 15 1) = Ok 41%Z /\
    calcMG zero zero (dec 25 1) = Ok 3%Z.
Proof.
  do 2 eexists.
  split; [apply calcATA_returns |]. split; [apply calcATA_returns |].
  split; [| split; [| split; vm_compute; reflexivity]].
  - intros n. rewrite calcMG_formula.
    change (Spec.divisor "salt") with (of_Z 33).
    split.
    + destruct (calcTimeToStop depth sw) as [t | e] eqn:Et; [| discriminate].
      rewrite bind_Ok.
      rewrite (float_of_int_representable t (calcTimeToStop_representable _ _ _ Et)).
      rewrite bind_Ok. intros H. apply math_floor_spec in H as [Hfin ->].
      exists t. auto.
    + intros (t & Et & Hfin & ->).
      rewrite Et, bind_Ok.
      rewrite (float_of_int_representable t (calcTimeToStop_representable _ _ _ Et)).
      rewrite bind_Ok. apply math_floor_spec. auto.
  - intros t Et. apply of_Z_exact, (calcTimeToStop_representable _ _ _ Et).
Qed.

(** * The rest of the library and the command line *)

Import GueCalcCli.

Section More_float_facts.
Import F64 Py.

Lemma add_nan_l (y : float) : add S754_nan y = S754_nan.
Proof. reflexivity. Qed.

Lemma add_nan_r (x : float) : add x S754_nan = S754_nan.
Proof. destruct x as [[]|[]| |s m e]; reflexivity. Qed.

Lemma fold_add_nan (l : list float) : fold_left add l S754_nan = S754_nan.
Proof. induction l as [| g l IH]; [reflexivity | exact IH]. Qed.

Lemma fold_add_In_nan (l : list float) : forall acc : float,
  In S754_nan l -> fold_left add l acc = S754_nan.
Proof.
  induction l as [| g l IH]; intros acc Hin; [destruct Hin |].
  destruct Hin as [-> | Hin]; simpl.
  - rewrite add_nan_r. apply fold_add_nan.
  - apply IH, Hin.
Qed.

End More_float_facts.

(** X1.  [calcPSI] raises [ZeroDivisionError] exactly on a zero tank
    factor; otherwise it returns one hundred times the truncation toward
    zero of [gas_cf / tank_factor], exactly when that quotient is finite.
    Whatever it returns is a multiple of 100. *)
Theorem calcPSI_hundreds (tank_factor gas_cf : float) :
  (calcPSI tank_factor gas_cf = Raise ZeroDivisionError <->
   eqb tank_factor zero = true) /\
  (eqb tank_factor zero = false ->
   forall n : Z,
     calcPSI tank_factor gas_cf = Ok n <->
     is_finite (div gas_cf tank_factor) = true /\
     n = (Spec.Qtrunc (to_Q (div gas_cf tank_factor)) * 100)%Z) /\
  (forall n : Z, calcPSI tank_factor gas_cf = Ok n -> (100 | n)%Z).
Proof.
  unfold calcPSI, truediv.
  destruct (eqb tank_factor zero) eqn:E.
  - split; [split; auto | split; [discriminate | discriminate]].
  - rewrite bind_Ok.
    destruct (float_int (div gas_cf tank_factor)) as [k | e] eqn:Ek.
    + apply float_int_spec in Ek as [Hfin ->].
      split; [split; discriminate |].
      split.
      * intros _ n. rewrite bind_Ok. split.
        -- intros [= <-]. auto.
        -- intros [_ ->]. reflexivity.
      * intros n. rewrite bind_Ok. intros [= <-]. apply Z.divide_factor_r.
    + assert (Hnot : forall n, ~ (is_finite (div gas_cf tank_factor) = true /\
                                  n = Spec.Qtrunc (to_Q (div gas_cf tank_factor)))).
      { intros n H. apply float_int_spec in H. congruence. }
      assert (He : e <> ZeroDivisionError)
        by (destruct (div gas_cf tank_factor); simpl in Ek; congruence).
      split; [split; [intros [= ->]; congruence | discriminate] |].
      split.
      * intros _ n. split; [discriminate |].
        intros [Hfin _]. exfalso. apply (Hnot 0%Z).
        destruct (div gas_cf tank_factor); try discriminate Hfin; discriminate Ek.
      * discriminate.
Qed.

(** X2.  [calcEAD] returns the truncation toward zero of
    [(ead_ata - 1) * factor], with [ata = depth / factor + 1] and
    [ead_ata = ata * ((1 - f_o2) / 0.79)], exactly when that float is
    finite; it never raises [ZeroDivisionError].  [calcEAD(100, 0.32)] is
    81 (from 81.48). *)
Theorem calcEAD_truncates (depth f_o2 : float) (water : string) :
  let ata := add (div depth (Spec.divisor water)) one in
  let ead_ata := mul ata (div (sub one f_o2) (dec 79 2)) in
  (forall n : Z,
     calcEAD depth f_o2 water = Ok n <->
     is_finite (mul (sub ead_ata one) (Spec.divisor water)) = true /\
     n = Spec.Qtrunc (to_Q (mul (sub ead_ata one) (Spec.divisor water)))) /\
  (forall e : exn,
     calcEAD depth f_o2 water = Raise e -> e = OverflowError \/ e = ValueError) /\
  calcEAD (of_Z 100) (dec 32 2) "salt" = Ok 81%Z.
Proof.
  intros ata ead_ata.
  assert (Hf : calcEAD depth f_o2 water =
               float_int (mul (sub ead_ata one) (Spec.divisor water))).
  { unfold calcEAD. fold (Spec.divisor water).
    rewrite (truediv_nonzero _ _ (divisor_not_zero water)), bind_Ok.
    rewrite truediv_nonzero by reflexivity. reflexivity. }
  split; [| split; [| vm_compute; reflexivity]].
  - intros n. rewrite Hf. apply float_int_spec.
  - intros e. rewrite Hf.
    destruct (mul (sub ead_ata one) (Spec.divisor water)); simpl;
      intros [=]; subst; auto.
Qed.

(** X3.  [calcpTot] adds the values from left to right, starting from
    [0.0], and returns [None] exactly when that sum is above 100; a sum it
    returns is never above 100, the empty input gives [0.0], and a sum of
    exactly 100 is returned.  A NaN among the values is not rejected: the
    result is NaN, not [None]. *)
Theorem calcpTot_checks_the_sum (gasses : list float) :
  calcpTot [] = Some zero /\
  (calcpTot gasses = None <->
   gtb (fold_left add gasses zero) (of_Z 100) = true) /\
  (forall r : float,
     calcpTot gasses = Some r ->
     r = fold_left add gasses zero /\ gtb r (of_Z 100) = false) /\
  (In S754_nan gasses -> calcpTot gasses = Some S754_nan) /\
  calcpTot [of_Z 21; of_Z 35; of_Z 44] = Some (of_Z 100) /\
  calcpTot [of_Z 60; of_Z 50] = None.
Proof.
  split; [reflexivity |].
  split; [| split; [| split; [| split; vm_compute; reflexivity]]].
  - unfold calcpTot.
    destruct (gtb (fold_left add gasses zero) (of_Z 100)); split;
      congruence || discriminate.
  - intros r. unfold calcpTot.
    destruct (gtb (fold_left add gasses zero) (of_Z 100)) eqn:E;
      [discriminate |]. intros [= <-]. auto.
  - intros Hin. unfold calcpTot. rewrite (fold_add_In_nan _ _ Hin). reflexivity.
Qed.

(** ** Canonical doubles and the identities of [1.0] and [0.0] *)

Section Valid_doubles.
Import F64 Py.

Lemma fexp_mono (a b : Z) : (a <= b -> fexp prec emax a <= fexp prec emax b)%Z.
Proof. unfold fexp. lia. Qed.

Lemma fexp_ge_emin (a : Z) : (emin prec emax <= fexp prec emax a)%Z.
Proof. unfold fexp. lia. Qed.

Lemma fexp_fixed (D : Z) : (D <= fexp prec emax D -> fexp prec emax D = emin prec emax)%Z.
Proof. unfold fexp, prec. lia. Qed.

Lemma Zdigits2_nonneg (m : Z) : (0 <= Zdigits2 m)%Z.
Proof. destruct m; simpl; lia. Qed.

Lemma Zdigits2_mono (a b : Z) : (0 <= a <= b -> Zdigits2 a <= Zdigits2 b)%Z.
Proof.
  intros [Ha Hab].
  destruct a as [| p | p]; [apply Zdigits2_nonneg | | lia].
  destruct b as [| q | q]; try lia.
  simpl.
  pose proof (digits2_bounds p) as [Hlo _].
  pose proof (digits2_bounds q) as [_ Hhi].
  assert (H : (2 ^ (Zpos (digits2_pos p) - 1) < 2 ^ Zpos (digits2_pos q))%Z) by lia.
  apply Z.pow_lt_mono_r_iff in H; lia.
Qed.

(** Digits left after a right shift. *)
Lemma Zdigits2_shiftr (m : Z) (k : positive) :
  (0 < m)%Z ->
  (0 < Z.shiftr m (Zpos k) -> Zdigits2 (Z.shiftr m (Zpos k)) = Zdigits2 m - Zpos k)%Z /\
  (Z.shiftr m (Zpos k) = 0%Z -> Zdigits2 m <= Zpos k)%Z.
Proof.
  intros Hm. destruct m as [| p | p]; try lia.
  pose proof (digits2_bounds p) as [Hlo Hhi]. cbn [Zdigits2].
  set (d := Zpos (digits2_pos p)) in *.
  rewrite Z.shiftr_div_pow2 by lia.
  pose proof (Z.pow_pos_nonneg 2 (Zpos k) eq_refl ltac:(lia)) as Hk.
  destruct (Z.lt_ge_cases (Zpos k) d) as [Hlt | Hge].
  - assert (Hq : (2 ^ (d - Zpos k - 1) <= Zpos p / 2 ^ Zpos k < 2 ^ (d - Zpos k))%Z).
    { split.
      - apply Z.div_le_lower_bound; [lia |].
        rewrite <- Z.pow_add_r by lia.
        replace (Zpos k + (d - Zpos k - 1))%Z with (d - 1)%Z by lia. exact Hlo.
      - apply Z.div_lt_upper_bound; [lia |].
        rewrite <- Z.pow_add_r by lia.
        replace (Zpos k + (d - Zpos k))%Z with d by lia. exact Hhi. }
    split.
    + intros _. apply Zdigits2_unique; [exact Hq | lia].
    + intros H0. rewrite H0 in Hq.
      pose proof (Z.pow_pos_nonneg 2 (d - Zpos k - 1) eq_refl ltac:(lia)). lia.
  - split; [| lia].
    intros Hpos. exfalso.
    assert (Zpos p / 2 ^ Zpos k = 0)%Z; [| lia].
    apply Z.div_small. split; [lia |].
    eapply Z.lt_le_trans; [exact Hhi |]. apply Z.pow_le_mono_r; lia.
Qed.

(** The shift of the rounding step leaves a canonical mantissa, or nothing
    at the least exponent. *)
Lemma shr_fexp_canon (m e : Z) (l : location) :
  (0 <= m)%Z ->
  (e <= fexp prec emax (Zdigits2 m + e))%Z ->
  (0 <= shr_m (fst (shr_fexp prec emax m e l)))%Z /\
  ((0 < shr_m (fst (shr_fexp prec emax m e l)))%Z ->
   fexp prec emax (Zdigits2 (shr_m (fst (shr_fexp prec emax m e l))) +
                   snd (shr_fexp prec emax m e l)) =
   snd (shr_fexp prec emax m e l)) /\
  (shr_m (fst (shr_fexp prec emax m e l)) = 0%Z ->
   snd (shr_fexp prec emax m e l) = emin prec emax).
Proof.
  intros Hm He. unfold shr_fexp, shr.
  assert (Hrec : shr_m (shr_record_of_loc m l) = m)
    by (destruct l as [| []]; reflexivity).
  set (D := (Zdigits2 m + e)%Z) in *.
  destruct (fexp prec emax D - e)%Z as [| k | k] eqn:E; cbn [fst snd]; try lia.
  - rewrite Hrec. split; [exact Hm |]. split.
    + intros _. fold D. lia.
    + intros ->. subst D. change (Zdigits2 0 + e)%Z with e in *.
      rewrite <- (fexp_fixed e) by lia. lia.
  - rewrite shr_iter_m, Hrec by (rewrite Hrec; exact Hm).
    split; [apply Z.shiftr_nonneg; exact Hm |].
    destruct (Z.eq_dec m 0%Z) as [-> | Hnz].
    + rewrite Z.shiftr_0_l. split; [lia |]. intros _.
      subst D. change (Zdigits2 0 + e)%Z with e in *.
      rewrite <- (fexp_fixed e) by lia. lia.
    + destruct (Zdigits2_shiftr m k ltac:(lia)) as [Hpos Hzero].
      split.
      * intros H. rewrite (Hpos H).
        replace (Zdigits2 m - Zpos k + (e + Zpos k))%Z with D by (subst D; lia).
        lia.
      * intros H. specialize (Hzero H).
        rewrite <- (fexp_fixed D) by (subst D; lia). lia.
Qed.

Lemma binary_round_aux_valid (s : bool) (m e : Z) (l : location) :
  (0 <= m)%Z ->
  (e <= fexp prec emax (Zdigits2 m + e))%Z ->
  valid (binary_round_aux prec emax s m e l).
Proof.
  intros Hm He. unfold valid, binary_round_aux.
  pose proof (shr_fexp_canon m e l Hm He) as (H1 & H2 & H3).
  destruct (shr_fexp prec emax m e l) as [mrs1 e1]. cbn [fst snd] in *.
  set (m2 := round_nearest_even (shr_m mrs1) (loc_of_shr_record mrs1)).
  assert (Hm2 : (shr_m mrs1 <= m2)%Z).
  { subst m2. destruct (loc_of_shr_record mrs1) as [| []]; simpl; try lia.
    destruct (Z.even (shr_m mrs1)); lia. }
  assert (He2 : (e1 <= fexp prec emax (Zdigits2 m2 + e1))%Z).
  { destruct (Z.eq_dec (shr_m mrs1) 0%Z) as [H0 | Hn0].
    - rewrite (H3 H0). apply fexp_ge_emin.
    - rewrite <- (H2 ltac:(lia)) at 1.
      apply fexp_mono.
      pose proof (Zdigits2_mono (shr_m mrs1) m2 ltac:(lia)). lia. }
  pose proof (shr_fexp_canon m2 e1 loc_Exact ltac:(lia) He2) as (K1 & K2 & K3).
  destruct (shr_fexp prec emax m2 e1 loc_Exact) as [mrs3 e3]. cbn [fst snd] in *.
  destruct (shr_m mrs3) as [| p | p] eqn:Ep; try reflexivity.
  destruct (Z.leb_spec e3 (emax - prec)) as [Hle | Hgt]; [| reflexivity].
  simpl. unfold bounded, canonical_mantissa.
  specialize (K2 ltac:(lia)). cbn [Zdigits2] in K2.
  rewrite K2, Z.eqb_refl. apply Z.leb_le in Hle. rewrite Hle. reflexivity.
Qed.

Lemma binary_round_valid (s : bool) (m : positive) (e : Z) :
  valid (binary_round prec emax s m e).
Proof.
  unfold binary_round, shl_align.
  set (D := (Zpos (digits2_pos m) + e)%Z).
  destruct (fexp prec emax D - e)%Z as [| k | k] eqn:E;
    apply binary_round_aux_valid; try lia; cbn [Zdigits2]; fold D; try lia.
  change (Zpos (digits2_pos (Pos.iter xO m k))) with (Zdigits2 (Zpos (Pos.iter xO m k))).
  rewrite (Zdigits2_unique (Zpos (Pos.iter xO m k)) (Zpos (digits2_pos m) + Zpos k)).
  - replace (Zpos (digits2_pos m) + Zpos k + fexp prec emax D)%Z with D
      by (subst D; lia). lia.
  - rewrite iter_xO_pow.
    pose proof (digits2_bounds m) as [Hlo Hhi].
    pose proof (Z.pow_pos_nonneg 2 (Zpos k) eq_refl ltac:(lia)).
    replace (Zpos (digits2_pos m) + Zpos k - 1)%Z
      with ((Zpos (digits2_pos m) - 1) + Zpos k)%Z by lia.
    rewrite !Z.pow_add_r by lia. nia.
  - lia.
Qed.

Lemma binary_normalize_valid (m e : Z) (sz : bool) :
  valid (binary_normalize prec emax m e sz).
Proof. destruct m; [reflexivity | apply binary_round_valid ..]. Qed.

Lemma add_valid (x y : float) : valid x -> valid y -> valid (add x y).
Proof.
  destruct x as [[] | [] | | sx mx ex], y as [[] | [] | | sy my ey];
    intros Hx Hy; try assumption; try reflexivity.
  apply binary_normalize_valid.
Qed.

Lemma sub_valid (x y : float) : valid x -> valid y -> valid (sub x y).
Proof.
  destruct x as [[] | [] | | sx mx ex], y as [[] | [] | | sy my ey];
    intros Hx Hy; try assumption; try reflexivity.
  apply binary_normalize_valid.
Qed.

Lemma valid_finite (s : bool) (m : positive) (e : Z) :
  valid (S754_finite s m e) ->
  fexp prec emax (Zpos (digits2_pos m) + e) = e /\ (e <= emax - prec)%Z.
Proof.
  unfold valid. simpl. unfold bounded, canonical_mantissa.
  intros [H1 H2]%andb_true_iff.
  apply Z.eqb_eq in H1. apply Z.leb_le in H2. auto.
Qed.

(** Multiplying a double by [1.0] returns it. *)
Lemma mul_one_r (x : float) : valid x -> mul x one = x.
Proof.
  destruct x as [[] | [] | | s m e]; try reflexivity.
  intros [Hc Hb]%valid_finite.
  unfold mul. change one with (S754_finite false 4503599627370496 (-52)).
  cbn [SFmul]. rewrite xorb_false_r.
  assert (HP : Zpos (m * 4503599627370496) = (Zpos m * 2 ^ 52)%Z) by reflexivity.
  apply binary_round_aux_exact; [| exact Hc | exact Hb].
  unfold shr_fexp. cbn [Zdigits2].
  rewrite (digits2_shift m 52 (m * 4503599627370496) ltac:(lia) HP).
  replace (Zpos (digits2_pos m) + 52 + (e + -52))%Z with (Zpos (digits2_pos m) + e)%Z by lia.
  rewrite Hc.
  replace (e - (e + -52))%Z with 52%Z by lia.
  unfold shr. cbn [shr_record_of_loc].
  rewrite HP, (shr_iter_exact 52 (Zpos m)) by lia.
  f_equal. lia.
Qed.

Lemma mul_comm (x y : float) : mul x y = mul y x.
Proof.
  destruct x as [sx | sx | | sx mx ex], y as [sy | sy | | sy my ey];
    unfold mul; cbn [SFmul]; rewrite ?(xorb_comm sy sx); try reflexivity.
  rewrite (Pos.mul_comm my mx), (Z.add_comm ey ex). reflexivity.
Qed.

Lemma mul_one_l (x : float) : valid x -> mul one x = x.
Proof. intros H. rewrite mul_comm. apply mul_one_r, H. Qed.

(** Dividing a double by [1.0] returns it. *)
Lemma div_one_r (x : float) : valid x -> div x one = x.
Proof.
  destruct x as [[] | [] | | s m e]; try reflexivity.
  intros [Hc Hb]%valid_finite.
  unfold div. change one with (S754_finite false 4503599627370496 (-52)).
  cbn [SFdiv]. rewrite xorb_false_r.
  unfold SFdiv_core_binary. cbn [Zdigits2].
  change (Zpos (digits2_pos 4503599627370496)) with 53%Z.
  set (d := Zpos (digits2_pos m)) in *.
  assert (Hd : (0 < d)%Z) by (subst d; lia).
  destruct (Z.eq_dec e (emin prec emax)) as [He | He].
  - (* subnormal range: the quotient keeps mantissa and exponent *)
    assert (He' : Z.min (fexp prec emax (d + e - (53 + -52))) (e - -52) = e)
      by (unfold fexp, emin, prec, emax in *; lia).
    rewrite He'. replace (e - -52 - e)%Z with 52%Z by lia.
    rewrite Z.shiftl_mul_pow2 by lia.
    change (2 ^ 52)%Z with 4503599627370496%Z.
    pose proof (Z_div_mod (Zpos m * 4503599627370496) 4503599627370496 eq_refl) as Hdm.
    destruct (Z.div_eucl (Zpos m * 4503599627370496) 4503599627370496) as [q r].
    assert (Hq : q = Zpos m /\ r = 0%Z) by lia.
    destruct Hq as [-> ->].
    change (new_location 4503599627370496 0) with loc_Exact.
    apply binary_round_aux_exact; [apply shr_fexp_noshift | |]; assumption.
  - assert (He' : Z.min (fexp prec emax (d + e - (53 + -52))) (e - -52) = (e - 1)%Z)
      by (unfold fexp, emin, prec, emax in *; lia).
    rewrite He'. replace (e - -52 - (e - 1))%Z with 53%Z by lia.
    rewrite Z.shiftl_mul_pow2 by lia.
    change (2 ^ 53)%Z with (2 * 4503599627370496)%Z.
    pose proof (Z_div_mod (Zpos m * (2 * 4503599627370496)) 4503599627370496 eq_refl)
      as Hdm.
    destruct (Z.div_eucl (Zpos m * (2 * 4503599627370496)) 4503599627370496)
      as [q r].
    assert (Hq : q = Zpos (m~0) /\ r = 0%Z) by lia.
    destruct Hq as [-> ->].
    change (new_location 4503599627370496 0) with loc_Exact.
    replace e with (e - 1 + 1)%Z at 2 by lia.
    apply binary_round_aux_exact.
    + unfold shr_fexp. cbn [Zdigits2 digits2_pos]. rewrite Pos2Z.inj_succ. fold d.
      replace (fexp prec emax (Z.succ d + (e - 1)) - (e - 1))%Z with 1%Z
        by (unfold fexp, emin, prec, emax in *; lia).
      reflexivity.
    + replace (e - 1 + 1)%Z with e by lia. exact Hc.
    + lia.
Qed.

(** A finite double minus itself is [+0.0]. *)
Lemma sub_diag (x : float) : is_finite x = true -> sub x x = zero.
Proof.
  destruct x as [[] | [] | | s m e]; try discriminate; try reflexivity.
  intros _. unfold sub. cbn [SFsub]. rewrite Z.sub_diag. reflexivity.
Qed.

Lemma eqb_refl_finite (x : float) : is_finite x = true -> eqb x x = true.
Proof.
  destruct x as [[] | [] | | s m e]; try discriminate; try reflexivity.
  intros _. unfold eqb, SFeqb. cbn [SFcompare].
  rewrite Z.compare_refl, Pos.compare_cont_refl. destruct s; reflexivity.
Qed.

Lemma add_one_valid (q : float) : valid (add q one).
Proof.
  destruct q as [[] | [] | | s m e]; try reflexivity.
  apply binary_normalize_valid.
Qed.

End Valid_doubles.

(** X4.  [calcPPO2] never raises and is [calcpGas] of the salt-water
    [calcATA]; at the surface it returns the oxygen fraction itself, bit
    for bit. *)
Theorem calcPPO2_surface (depth percent_O2 : float) :
  (exists a : float,
     calcATA depth "salt" = Ok a /\
     calcPPO2 depth percent_O2 = Ok (calcpGas a percent_O2)) /\
  (valid percent_O2 -> calcPPO2 zero percent_O2 = Ok percent_O2).
Proof.
  split.
  - eexists. split; [apply calcATA_returns |].
    unfold calcPPO2. rewrite calcATA_returns. reflexivity.
  - intros Hv. unfold calcPPO2.
    change (calcATA zero "salt") with (Ok one).
    rewrite bind_Ok, (mul_one_l _ Hv). reflexivity.
Qed.

Lemma calcPPO2_surface_witness :
  calcPPO2 zero (dec 21 2) = Ok (dec 21 2).
Proof.
  apply (proj2 (calcPPO2_surface zero (dec 21 2))). reflexivity.
Defined.

(** X5.  A gas switch at the current depth takes exactly two minutes: for
    a finite depth above zero, [calcTimeToStop(depth, depth)] is 2. *)
Theorem calcTimeToStop_switch_at_depth (depth : float) :
  gtb depth zero = true -> is_finite depth = true ->
  calcTimeToStop depth depth = Ok 2%Z.
Proof.
  intros Hpos Hfin.
  rewrite (calcTimeToStop_switch _ _ Hpos), (sub_diag _ Hfin). reflexivity.
Qed.

Lemma calcTimeToStop_switch_at_depth_witness :
  calcTimeToStop (of_Z 70) (of_Z 70) = Ok 2%Z.
Proof.
  apply calcTimeToStop_switch_at_depth; reflexivity.
Defined.

(** X6.  Without helium the narcotic depth is the air-equivalent depth of
    air: [calcEND(depth, 0.0, water)] and [calcEAD(depth, 0.21, water)]
    are the same result for every depth and water, namely [int] of
    [(ata - 1) * factor] with [ata = depth / factor + 1].  That result
    need not be the depth: at 10 feet in salt water both give 9. *)
Theorem calcEND_no_helium_is_calcEAD_air (depth : float) (water : string) :
  calcEND depth zero water = calcEAD depth (dec 21 2) water /\
  calcEND depth zero water =
    float_int (mul (sub (add (div depth (Spec.divisor water)) one) one)
                   (Spec.divisor water)) /\
  calcEND (of_Z 10) zero "salt" = Ok 9%Z /\
  calcEAD (of_Z 10) (dec 21 2) "salt" = Ok 9%Z.
Proof.
  assert (HE : calcEND depth zero water =
               float_int (mul (sub (add (div depth (Spec.divisor water)) one) one)
                              (Spec.divisor water))).
  { rewrite calcEND_formula.
    change (sub one zero) with one.
    rewrite (mul_one_r _ (add_one_valid _)). reflexivity. }
  split; [| split; [exact HE | split; vm_compute; reflexivity]].
  rewrite HE. unfold calcEAD. fold (Spec.divisor water).
  rewrite (truediv_nonzero _ _ (divisor_not_zero water)), bind_Ok.
  rewrite truediv_nonzero by reflexivity. rewrite bind_Ok.
  replace (div (sub one (dec 21 2)) (dec 79 2)) with one
    by (vm_compute; reflexivity).
  rewrite (mul_one_r _ (add_one_valid _)). reflexivity.
Qed.

(** X7.  With method ['ALL'] the usable gas is exactly the difference
    [curr_psi - mg_psi]: dividing by 1 changes nothing. *)
Theorem calcUG_all_is_difference (curr_psi mg_psi : float) :
  valid curr_psi -> valid mg_psi ->
  calcUG curr_psi mg_psi "ALL" = Ok (sub curr_psi mg_psi).
Proof.
  intros Hc Hm.
  change (calcUG curr_psi mg_psi "ALL")
    with (truediv (sub curr_psi mg_psi) one).
  rewrite truediv_nonzero by reflexivity.
  rewrite (div_one_r _ (sub_valid _ _ Hc Hm)). reflexivity.
Qed.

Lemma calcUG_all_is_difference_witness :
  calcUG (of_Z 3000) (of_Z 500) "ALL" = Ok (of_Z 2500).
Proof.
  apply (calcUG_all_is_difference (of_Z 3000) (of_Z 500)); reflexivity.
Defined.

(** X8.  [O2_PSI_to_add] never raises.  For a target of 0.21, the oxygen
    fraction of air, and a finite fill pressure it returns zero (with the
    sign of the pressure): air topped with air needs no oxygen. *)
Theorem O2_PSI_to_add_air (target_fraction_o2 p : float) :
  O2_PSI_to_add target_fraction_o2 p =
    Ok (mul (div (sub target_fraction_o2 (dec 21 2)) (dec 79 2)) p) /\
  (is_finite p = true ->
   O2_PSI_to_add (dec 21 2) p = Ok (S754_zero (sign p))).
Proof.
  assert (H : forall t, O2_PSI_to_add t p =
                        Ok (mul (div (sub t (dec 21 2)) (dec 79 2)) p))
    by (intros t; unfold O2_PSI_to_add;
        rewrite truediv_nonzero by reflexivity; reflexivity).
  split; [apply H |].
  intros Hfin. rewrite H.
  destruct p as [sp | sp | | sp m e]; try discriminate Hfin; reflexivity.
Qed.

Lemma O2_PSI_to_add_air_witness :
  O2_PSI_to_add (dec 21 2) (of_Z 3000) = Ok zero.
Proof.
  apply (proj2 (O2_PSI_to_add_air (dec 21 2) (of_Z 3000))). reflexivity.
Defined.

Section Blend_facts.
Import F64 Py.

Lemma nitrox_FO2_returns (a b : float) :
  nitrox_FO2 a b = Ok (if eqb b zero then zero else div a b).
Proof.
  unfold nitrox_FO2, truediv. destruct (eqb b zero); reflexivity.
Qed.

Lemma O2_PSI_to_add_returns (t p : float) :
  O2_PSI_to_add t p = Ok (mul (div (sub t (dec 21 2)) (dec 79 2)) p).
Proof.
  unfold O2_PSI_to_add. rewrite truediv_nonzero by reflexivity. reflexivity.
Qed.

Lemma float_int_raises (x : float) (e : exn) :
  float_int x = Raise e -> e = OverflowError \/ e = ValueError.
Proof. destruct x; simpl; intros [=]; subst; auto. Qed.

Lemma float_int_finite_returns (x : float) :
  is_finite x = true <-> exists n : Z, float_int x = Ok n.
Proof.
  split.
  - intros H. exists (Spec.Qtrunc (to_Q x)). apply float_int_spec. auto.
  - intros [n H]. apply float_int_spec in H. tauto.
Qed.

End Blend_facts.

(** X9.  [trimixPP] writes its four lines exactly when [f_o2 * 100] and
    [f_he * 100] are finite; otherwise [int] raises [OverflowError] or
    [ValueError] before anything is written, and nothing else is ever
    raised: a blend that leaves no pressure for nitrox does not divide by
    zero.  For pure helium and a finite fill pressure the plan is to add
    the whole pressure as helium and [-0.0] of oxygen. *)
Theorem trimixPP_plan (f_o2 f_he p : float) :
  ((exists out : list line, trimixPP f_o2 f_he p = Ok out) <->
   is_finite (mul f_o2 (of_Z 100)) = true /\
   is_finite (mul f_he (of_Z 100)) = true) /\
  (forall e : exn,
     trimixPP f_o2 f_he p = Raise e -> e = OverflowError \/ e = ValueError) /\
  (forall out : list line, trimixPP f_o2 f_he p = Ok out -> length out = 4%nat) /\
  (valid p -> is_finite p = true ->
   forall o2 : Z,
     float_int (mul f_o2 (of_Z 100)) = Ok o2 ->
     trimixPP f_o2 one p =
     Ok [ [[Str "for trimix:"]; [Int o2]; [Str "/"]; [Int 100]];
          [[Str "add He:"]; [Float p]];
          [[Str "add O2:"]; [Float (S754_zero true)]];
          [[Str "fill with air"]] ]).
Proof.
  split; [| split; [| split]].
  - unfold trimixPP.
    rewrite nitrox_FO2_returns, bind_Ok, !float_int_finite_returns.
    split.
    + intros [out H].
      destruct (float_int (mul f_o2 (of_Z 100))) as [a | e]; [| discriminate H].
      destruct (float_int (mul f_he (of_Z 100))) as [b | e]; [| discriminate H].
      eauto.
    + intros [[a ->] [b ->]]. rewrite !bind_Ok, O2_PSI_to_add_returns. eauto.
  - intros e. unfold trimixPP. rewrite nitrox_FO2_returns, bind_Ok.
    destruct (float_int (mul f_o2 (of_Z 100))) as [a | e1] eqn:E1.
    + destruct (float_int (mul f_he (of_Z 100))) as [b | e2] eqn:E2.
      * rewrite !bind_Ok, O2_PSI_to_add_returns. discriminate.
      * rewrite bind_Ok. intros [= <-]. apply (float_int_raises _ _ E2).
    + intros [= <-]. apply (float_int_raises _ _ E1).
  - intros out. unfold trimixPP. rewrite nitrox_FO2_returns, bind_Ok.
    destruct (float_int (mul f_o2 (of_Z 100))) as [a | e1]; [| discriminate].
    destruct (float_int (mul f_he (of_Z 100))) as [b | e2]; [| discriminate].
    rewrite !bind_Ok, O2_PSI_to_add_returns. intros [= <-]. reflexivity.
  - intros Hv Hfin o2 Ho2. unfold trimixPP, trimix_P_He, nitrox_p.
    rewrite (mul_one_l _ Hv), (sub_diag _ Hfin), nitrox_FO2_returns, bind_Ok, Ho2.
    reflexivity.
Qed.

Lemma trimixPP_plan_witness :
  trimixPP (dec 16 2) one (of_Z 3000) =
  Ok [ [[Str "for trimix:"]; [Int 16]; [Str "/"]; [Int 100]];
       [[Str "add He:"]; [Float (of_Z 3000)]];
       [[Str "add O2:"]; [Float (S754_zero true)]];
       [[Str "fill with air"]] ].
Proof.
  apply (proj2 (proj2 (proj2 (trimixPP_plan (dec 16 2) one (of_Z 3000)))));
    reflexivity.
Defined.

Section Bottom_time_facts.
Import F64 Py.

(** The tank factor of a registered tank: the integer and the float
    reading of [calcTF] agree on it, and it is not zero. *)
Lemma tanks_registered (name : string) (t : tank_info) :
  dict_get tanks name = Some t ->
  exists tf : float,
    calcTF_int (rated_vol t) (rated_PSI t) = Ok tf /\
    calcTF (of_Z (rated_vol t)) (of_Z (rated_PSI t)) = Ok tf /\
    is_zero tf = false.
Proof.
  unfold tanks, dict_get.
  repeat case_decide; intros [= <-];
    (eexists; split; [vm_compute; reflexivity | split; vm_compute; reflexivity]).
Qed.

Lemma math_floor_raises (x : float) (e : exn) :
  math_floor x = Raise e -> e = OverflowError \/ e = ValueError.
Proof. destruct x; simpl; intros [=]; subst; auto. Qed.

Lemma float_of_int_raises (n : Z) (e : exn) :
  float_of_int n = Raise e -> e = OverflowError.
Proof.
  unfold float_of_int. destruct (of_Z n); intros [=]; subst; reflexivity.
Qed.

Lemma calcTimeToStop_raises (depth sw : float) (e : exn) :
  calcTimeToStop depth sw = Raise e -> e = OverflowError \/ e = ValueError.
Proof.
  destruct (gtb sw zero) eqn:E;
    [rewrite (calcTimeToStop_switch _ _ E) | rewrite (calcTimeToStop_surface _ _ E)];
    apply float_int_raises.
Qed.

Lemma calcMG_raises (depth sw c : float) (e : exn) :
  calcMG depth sw c = Raise e -> e = OverflowError \/ e = ValueError.
Proof.
  rewrite calcMG_formula.
  destruct (calcTimeToStop depth sw) as [t | e1] eqn:Et.
  - rewrite bind_Ok.
    destruct (float_of_int t) as [tf | e2] eqn:Ef.
    + rewrite bind_Ok. apply math_floor_raises.
    + intros [= <-]. left. apply (float_of_int_raises _ _ Ef).
  - intros [= <-]. apply (calcTimeToStop_raises _ _ _ Et).
Qed.

Lemma calcPSI_int_raises (tf : float) (cf : Z) (e : exn) :
  is_zero tf = false ->
  calcPSI_int tf cf = Raise e -> e = OverflowError \/ e = ValueError.
Proof.
  intros Hz. unfold calcPSI_int, calcPSI.
  destruct (float_of_int cf) as [x | e1] eqn:Ex.
  - rewrite bind_Ok, (truediv_nonzero _ _ Hz), bind_Ok.
    destruct (float_int (div x tf)) as [n | e2] eqn:En.
    + discriminate.
    + intros [= <-]. apply (float_int_raises _ _ En).
  - intros [= <-]. left. apply (float_of_int_raises _ _ Ex).
Qed.

Lemma int_truediv_raises (a b : Z) (e : exn) :
  b <> 0%Z -> int_truediv a b = Raise e -> e = OverflowError.
Proof.
  intros Hb. unfold int_truediv.
  destruct (Z.eqb_spec b 0) as [-> | _]; [contradiction |].
  destruct (of_ratio _ _ _); intros [=]; subst; reflexivity.
Qed.

Lemma calcUG_int_cases (cur mg : Z) (method : string) :
  (methods !! method = None /\ calcUG_int cur mg method = Raise KeyError) \/
  (exists d : Z, methods !! method = Some d /\ d <> 0%Z /\
                 calcUG_int cur mg method = int_truediv (cur - mg) d).
Proof.
  unfold calcUG_int. rewrite methods_lookup.
  repeat case_decide; [right; eexists; repeat split; lia .. | left; auto].
Qed.

End Bottom_time_facts.

(** X10.  [calcBottomTime] looks the tank up before anything can fail:
    an unregistered tank raises [KeyError] whatever the depth, method and
    rate are.  For a registered tank a failure of [calcMG] on the depth
    comes first, an unknown method never yields a bottom time, and
    [ZeroDivisionError] is raised only when [scr * ata] is zero (the tank
    factors of the registry are not).  With the default arguments the
    result is [366.6666666666667]. *)
Theorem calcBottomTime_errors (depth : float) (tank method : string) (scr : float) :
  (dict_get tanks tank = None ->
   calcBottomTime depth tank method scr = Raise KeyError) /\
  (forall (t : tank_info) (e : exn),
     dict_get tanks tank = Some t ->
     calcMG depth zero (dec 15 1) = Raise e ->
     calcBottomTime depth tank method scr = Raise e) /\
  (methods !! method = None ->
   forall r : float, calcBottomTime depth tank method scr <> Ok r) /\
  (calcBottomTime depth tank method scr = Raise ZeroDivisionError ->
   exists a : float,
     calcATA depth "salt" = Ok a /\ eqb (mul scr a) zero = true) /\
  calcBottomTime (of_Z 100) "2xAL80" "ALL" (dec 15 1) =
    Ok (S754_finite false 6450468216285867 (-44)).
Proof.
  unfold calcBottomTime. rewrite calcATA_returns, bind_Ok.
  set (a := float_round_to _ 1).
  split; [| split; [| split; [| split; [| vm_compute; reflexivity]]]].
  - intros ->. reflexivity.
  - intros t e Ht He. rewrite Ht.
    destruct (tanks_registered _ _ Ht) as (tf & -> & _ & _).
    rewrite bind_Ok, He. reflexivity.
  - intros Hm r.
    destruct (dict_get tanks tank) as [t |]; [| discriminate].
    destruct (calcTF_int _ _) as [tf | e]; [rewrite bind_Ok | discriminate].
    destruct (calcMG _ _ _) as [cf | e]; [rewrite bind_Ok | discriminate].
    destruct (calcPSI_int tf cf) as [psi | e]; [rewrite bind_Ok | discriminate].
    unfold calcUG_int. rewrite Hm. discriminate.
  - destruct (dict_get tanks tank) as [t |] eqn:Ht; [| discriminate].
    destruct (tanks_registered _ _ Ht) as (tf & -> & _ & Hz).
    rewrite bind_Ok.
    destruct (calcMG _ _ _) as [cf | e] eqn:Ecf; [rewrite bind_Ok |].
    2: { intros [= ->]. destruct (calcMG_raises _ _ _ _ Ecf); discriminate. }
    destruct (calcPSI_int tf cf) as [psi | e] eqn:Epsi; [rewrite bind_Ok |].
    2: { intros [= ->]. destruct (calcPSI_int_raises _ _ _ Hz Epsi); discriminate. }
    destruct (calcUG_int_cases (rated_PSI t) psi method)
      as [[_ ->] | (d & _ & Hd & ->)]; [discriminate |].
    destruct (int_truediv _ d) as [ug | e] eqn:Eug; [rewrite bind_Ok |].
    2: { intros [= ->]. pose proof (int_truediv_raises _ _ _ Hd Eug). discriminate. }
    unfold truediv. destruct (eqb (mul scr a) zero) eqn:E; [| discriminate].
    intros _. exists a. auto.
Qed.

Section Dictionary_facts.

Lemma dict_get_None {V : Type} (d : list (string * V)) (key : string) :
  dict_get d key = None <-> ~ In key (dict_keys d).
Proof.
  induction d as [| [k v] d IH]; simpl.
  - tauto.
  - case_decide as Hk.
    + split; [discriminate | intros H; exfalso; apply H; auto].
    + rewrite IH. tauto.
Qed.

End Dictionary_facts.

(** X11.  The [tank] command leaves with status 1 exactly when the name
    is not a key of [tanks], after writing one line that names the tank
    and lists the registered tanks in the order of the dictionary; for a
    registered tank it returns after writing four lines, the last with the
    tank factor [calcTF] gives, and no exception escapes. *)
Theorem cmd_tank_outcome (tank_name : string) :
  (~ In tank_name (dict_keys tanks) ->
   cmd_tank tank_name =
   Exited [ [[Str "Error: Tank '"; Str tank_name;
              Str "' not found. Available tanks: ";
              Str "AL80, 2xAL80, AL40, 2xLP85, 2xHP100, 2xHP133"]] ] 1) /\
  (In tank_name (dict_keys tanks) ->
   exists (t : tank_info) (tf : float),
     dict_get tanks tank_name = Some t /\
     calcTF (of_Z (rated_vol t)) (of_Z (rated_PSI t)) = Ok tf /\
     cmd_tank tank_name =
     Returned [ [[Str "Tank: "; Str tank_name]];
                [[Str "  Rated Volume: "; Int (rated_vol t); Str " cf"]];
                [[Str "  Rated Pressure: "; Int (rated_PSI t); Str " psi"]];
                [[Str "  Tank Factor: "; Float tf; Str " cf/100psi"]] ]) /\
  (forall (out : list line) (status : Z),
     cmd_tank tank_name = Exited out status ->
     status = 1%Z /\ ~ In tank_name (dict_keys tanks)) /\
  (forall (out : list line) (e : exn), cmd_tank tank_name <> Escaped out e).
Proof.
  unfold cmd_tank.
  destruct (dict_get tanks tank_name) as [t |] eqn:Ht.
  - destruct (tanks_registered _ _ Ht) as (tf & -> & Hf & _).
    assert (Hin : In tank_name (dict_keys tanks)).
    { destruct (in_dec string_dec tank_name (dict_keys tanks)) as [H | H];
        [exact H |]. apply dict_get_None in H. congruence. }
    repeat split; try discriminate.
    + intros H. contradiction.
    + intros _. exists t, tf. auto.
  - apply dict_get_None in Ht.
    repeat split; try discriminate; try (intros; contradiction).
    + injection H as _ <-. reflexivity.
    + injection H as _ _. exact Ht.
Qed.

Lemma cmd_tank_outcome_witness :
  cmd_tank "INVALID" =
  Exited [ [[Str "Error: Tank '"; Str "INVALID";
             Str "' not found. Available tanks: ";
             Str "AL80, 2xAL80, AL40, 2xLP85, 2xHP100, 2xHP133"]] ] 1.
Proof.
  apply (proj1 (cmd_tank_outcome "INVALID")).
  vm_compute. intros H. repeat (destruct H as [H | H]; [discriminate H |]).
  exact H.
Defined.
